(** * Studymate: the content retrieval and excerpt-sizing engine

    A shallow embedding of the two extractors of the Studymate sources,
    [AIStudyAssistant._extract_relevant_content]
    (src/Studymate/ai_assistant_remote.py) and
    [PDFProcessor.search_in_pdf] / [PDFProcessor.get_expanded_content]
    (src/Studymate/pdf_processor.py), with the properties the specification
    states about them.  The code around them is embedded too: the cleaning
    and the extraction of the text of the pages (pdf_processor.py), with the
    patterns of [re.sub] run by a small backtracking matcher, and the answers
    [AIStudyAssistant.generate_response] builds from an excerpt, the request
    to the inference endpoint being a parameter.

    Python values are modelled as follows.
    - [str] is a list of characters of Rocq's [ascii] type, which stand for
      256 code points: the codes 0..133, 148..255 for U+0000..U+0085,
      U+0094..U+00FF (ASCII and Latin-1), the codes 134..145 for the
      characters outside Latin-1 the literals of the source hold ([Glyph]),
      146 for U+0130 (capital I with dot above) and 147 for U+0307 (combining
      dot above).  The case and white-space tables are Python's on these code
      points.  [lower] is [str.lower]: it maps U+0130, the one code point of
      Unicode whose lowercase form is longer than itself, to the two code
      points U+0069 U+0307, so it may lengthen a string.
    - [int] is [Z]; [Optional[int]] is [option Z]; truthiness of an optional
      integer is [truthy].
    - A function whose Python body indexes a list returns an [option]: [None]
      stands for a raised [IndexError].  Theorems that say "no error" prove the
      result is [Some _]. *)

From Stdlib Require Import List Ascii ZArith Lia Bool Arith DecimalString Sorted.
From Stdlib Require String.
Import ListNotations String.StringSyntax.

Local Open Scope Z_scope.

(** ** Python strings *)

Abbreviation str := (list ascii).

(** A string literal of the source. *)
Delimit Scope string_scope with string.

Definition lit (s : String.string) : str := String.list_ascii_of_string s.
Arguments lit s%_string.

(** [len(x)] as a Python integer. *)
Definition len {A : Type} (l : list A) : Z := Z.of_nat (length l).

Definition nl : ascii := "010"%char.
Definition dot : ascii := "."%char.

(** U+0130, latin capital letter I with dot above, and U+0307, combining dot
    above. *)
Definition capital_i_dot : ascii := ascii_of_nat 146.
Definition combining_dot : ascii := ascii_of_nat 147.

Module PyStr.

(** [c.isspace()], which is also the class [\s] of [re]: tab, line feed,
    vertical tab, form feed, carriage return, the four separators 28..31, the
    space, U+0085 and U+00A0. *)
Definition isspace (c : ascii) : bool :=
  let n := nat_of_ascii c in
  (((9 <=? n) && (n <=? 13)) || ((28 <=? n) && (n <=? 32))
   || (n =? 133) || (n =? 160))%nat.

(** The uppercase letters with a lowercase form 32 code points further:
    A..Z and U+00C0..U+00DE but the multiplication sign U+00D7. *)
Definition shifts (c : ascii) : bool :=
  let n := nat_of_ascii c in
  (((65 <=? n) && (n <=? 90))
   || ((192 <=? n) && (n <=? 222) && negb (n =? 215)))%nat.

(** [c.isupper()] *)
Definition is_upper_char (c : ascii) : bool :=
  shifts c || Ascii.eqb c capital_i_dot.

(** [c.islower()]: a..z, the ordinal indicators U+00AA and U+00BA, the micro
    sign U+00B5 and U+00DF..U+00FF but the division sign U+00F7. *)
Definition is_lower_char (c : ascii) : bool :=
  let n := nat_of_ascii c in
  (((97 <=? n) && (n <=? 122))
   || (n =? 170) || (n =? 181) || (n =? 186)
   || ((223 <=? n) && negb (n =? 247)))%nat.

(** The lowercase form of a character other than U+0130. *)
Definition lower_char (c : ascii) : ascii :=
  if shifts c then ascii_of_nat (nat_of_ascii c + 32) else c.

(** [c.lower()], a string: two code points for U+0130. *)
Definition lower_chars (c : ascii) : str :=
  if Ascii.eqb c capital_i_dot then ["i"%char; combining_dot] else [lower_char c].

(** [s.lower()] *)
Definition lower (s : str) : str := flat_map lower_chars s.

(** [s.isupper()]: some cased character, and no lowercase one. *)
Definition isupper (s : str) : bool :=
  existsb is_upper_char s && negb (existsb is_lower_char s).

(** [a == b] on strings. *)
Fixpoint eqb (a b : str) : bool :=
  match a, b with
  | [], [] => true
  | x :: a', y :: b' => Ascii.eqb x y && eqb a' b'
  | _, _ => false
  end.

(** [s.startswith(p)] *)
Fixpoint startswith (s p : str) {struct p} : bool :=
  match p, s with
  | [], _ => true
  | x :: p', y :: s' => Ascii.eqb x y && startswith s' p'
  | _ :: _, [] => false
  end.

(** [s.startswith((p1, ..., pn))] *)
Definition startswith_any (s : str) (ps : list str) : bool :=
  existsb (startswith s) ps.

(** [s.endswith(c)] for a one-character suffix. *)
Fixpoint endswith_char (s : str) (c : ascii) : bool :=
  match s with
  | [] => false
  | [x] => Ascii.eqb x c
  | _ :: r => endswith_char r c
  end.

(** [w in s] *)
Fixpoint contains (w s : str) : bool :=
  startswith s w ||
  match s with
  | [] => false
  | _ :: r => contains w r
  end.

(** [s.find(w)], counting from [i]: the least offset of an occurrence, or -1. *)
Fixpoint find_from (w s : str) (i : Z) : Z :=
  if startswith s w then i
  else match s with
       | [] => -1
       | _ :: r => find_from w r (i + 1)
       end.

Definition find (s w : str) : Z := find_from w s 0.

Fixpoint lstrip (s : str) : str :=
  match s with
  | [] => []
  | c :: r => if isspace c then lstrip r else s
  end.

Definition rstrip (s : str) : str := rev (lstrip (rev s)).

(** [s.strip()] *)
Definition strip (s : str) : str := rstrip (lstrip s).

(** [s.split(sep)] for a one-character separator: never the empty list. *)
Fixpoint split_on (sep : ascii) (s : str) : list str :=
  match s with
  | [] => [[]]
  | c :: r =>
      if Ascii.eqb c sep then [] :: split_on sep r
      else match split_on sep r with
           | l :: ls => (c :: l) :: ls
           | [] => [[c]]
           end
  end.

Definition cons_word (w : str) (ws : list str) : list str :=
  match w with
  | [] => ws
  | _ :: _ => w :: ws
  end.

(** The word being read and the words after it. *)
Fixpoint split_ws_aux (s : str) : str * list str :=
  match s with
  | [] => ([], [])
  | c :: r =>
      let (w, ws) := split_ws_aux r in
      if isspace c then ([], cons_word w ws) else (c :: w, ws)
  end.

(** [s.split()]: the maximal runs of non-blank characters. *)
Definition split (s : str) : list str :=
  let (w, ws) := split_ws_aux s in cons_word w ws.

(** [sep.join(ls)] for a one-character separator. *)
Fixpoint join (sep : ascii) (ls : list str) : str :=
  match ls with
  | [] => []
  | [l] => l
  | l :: rest => l ++ sep :: join sep rest
  end.

(** [s.replace(old, new)] for a non-empty [old]: occurrences are replaced
    from the left and do not overlap.  [skip] counts the characters of the
    occurrence just replaced that are still to be passed over. *)
Fixpoint replace_skip (old new : str) (skip : nat) (s : str) : str :=
  match s with
  | [] => []
  | c :: r =>
      match skip with
      | S k => replace_skip old new k r
      | O =>
          if startswith s old
          then new ++ replace_skip old new (Nat.pred (length old)) r
          else c :: replace_skip old new 0 r
      end
  end.

Definition replace (s old new : str) : str := replace_skip old new 0 s.

(** An index of a slice [s[a:b]], brought into [0 .. len s]. *)
Definition slice_index {A : Type} (l : list A) (i : Z) : nat :=
  Z.to_nat (if i <? 0 then Z.max 0 (i + len l) else Z.min i (len l)).

(** [l[a:b]] *)
Definition slice {A : Type} (l : list A) (a b : Z) : list A :=
  let a' := slice_index l a in
  let b' := slice_index l b in
  firstn (b' - a') (skipn a' l).

(** [l[j]]: [None] is an [IndexError]; a negative index counts from the end. *)
Definition getitem {A : Type} (l : list A) (j : Z) : option A :=
  if j <? 0 then
    if j + len l <? 0 then None else nth_error l (Z.to_nat (j + len l))
  else nth_error l (Z.to_nat j).

(** The [k] integers from [a] on. *)
Fixpoint count_from (a : Z) (k : nat) : list Z :=
  match k with
  | O => []
  | S k' => a :: count_from (a + 1) k'
  end.

(** [range(a, b)] *)
Definition range (a b : Z) : list Z := count_from a (Z.to_nat (b - a)).

(** Truthiness of an [Optional[int]]: neither [None] nor 0. *)
Definition truthy (x : option Z) : bool :=
  match x with
  | Some v => negb (v =? 0)
  | None => false
  end.

End PyStr.

Import PyStr.

Definition is_empty {A : Type} (l : list A) : bool :=
  match l with
  | [] => true
  | _ :: _ => false
  end.

(** The value of an [Optional[int]] that has passed its truthiness test. *)
Definition int_of (x : option Z) : Z :=
  match x with
  | Some v => v
  | None => 0
  end.

Definition examination : str := lit "examination".
Definition age_appropriate : str := lit "age_appropriate".
Definition general : str := lit "general".

(** ** ai_assistant_remote.py: [AIStudyAssistant] *)

Module Assistant.

Definition no_content_message : str := lit "No PDF content available.".

(** The f-string returned when nothing was collected. *)
Definition pointer_message (question : str) : str :=
  lit "Content related to '" ++ question ++
  lit "' can be found in your uploaded PDF. Please use the search feature for more specific results.".

Definition heading_markers : list str :=
  [lit "1."; lit "2."; lit "3."; lit "4."; lit "5."; lit "Chapter"; lit "CHAPTER"].

(** Lines 287-308: the line count for a mode and its parameter. *)
Definition lines_needed (mode : str) (marks age : option Z) : Z :=
  if eqb mode examination && truthy marks then
    let marks := int_of marks in
    if marks <=? 5 then 10
    else if marks <=? 10 then 20
    else if marks <=? 15 then 30
    else 30
  else if eqb mode age_appropriate && truthy age then
    let age := int_of age in
    if age <=? 5 then 10
    else if age <=? 10 then 20
    else if age <=? 15 then 30
    else 20
  else if eqb mode general then 50
  else 10.

(** Lines 316-317: the test for a new heading. *)
Definition is_heading (current_line : str) : bool :=
  (isupper current_line && (10 <? len current_line))
  || startswith_any current_line heading_markers.

(** Line 281: [any(word in line_lower for word in question_words if len(word) > 3)]. *)
Definition line_matches (question_words : list str) (line_lower : str) : bool :=
  existsb (fun word => contains word line_lower)
          (filter (fun word => 3 <? len word) question_words).

(** Lines 312-331: the loop over [j], with its three [break]s. *)
Fixpoint collect (content_lines : list str) (mode : str) (lines_needed : Z)
         (js : list Z) (extracted_lines : list str) : option (list str) :=
  match js with
  | [] => Some extracted_lines
  | j :: js' =>
      match getitem content_lines j with
      | None => None
      | Some raw =>
          let current_line := strip raw in
          if is_empty current_line then
            collect content_lines mode lines_needed js' extracted_lines
          else if is_heading current_line && (3 <? len extracted_lines) then
            Some extracted_lines
          else
            let extracted_lines := extracted_lines ++ [current_line] in
            if eqb mode general && endswith_char current_line dot
               && (50 <=? len extracted_lines)
            then Some extracted_lines
            else if (eqb mode examination || eqb mode age_appropriate)
                    && (lines_needed <=? len extracted_lines)
                    && endswith_char current_line dot
            then Some extracted_lines
            else collect content_lines mode lines_needed js' extracted_lines
      end
  end.

(** Lines 278-334: the loop over the lines; it ends at the first line that
    holds a question word, with what [collect] gathered around it. *)
Fixpoint scan (content_lines question_words : list str) (mode : str)
         (marks age : option Z) (i : Z) (rest : list str) : option (list str) :=
  match rest with
  | [] => Some []
  | line :: rest' =>
      let line_lower := lower line in
      if line_matches question_words line_lower then
        let start_idx := Z.max 0 (i - 2) in
        let lines_needed := lines_needed mode marks age in
        collect content_lines mode lines_needed
                (range start_idx
                       (Z.min (len content_lines) (start_idx + lines_needed + 5)))
                []
      else scan content_lines question_words mode marks age (i + 1) rest'
  end.

(** Lines 338-343: the first paragraph, when nothing matched. *)
Fixpoint first_paragraph (lines words_in_content : list str) : list str :=
  match lines with
  | [] => words_in_content
  | line :: rest =>
      if negb (is_empty (strip line)) && (20 <? len (strip line)) then
        let words_in_content := words_in_content ++ [strip line] in
        if 8 <=? len words_in_content then words_in_content
        else first_paragraph rest words_in_content
      else first_paragraph rest words_in_content
  end.

(** Lines 265-355. *)
Definition _extract_relevant_content (pdf_content question mode : str)
           (marks age : option Z) : option str :=
  if is_empty pdf_content then Some no_content_message
  else
    let question_words := split (lower question) in
    let content_lines := split_on nl pdf_content in
    match scan content_lines question_words mode marks age 0 content_lines with
    | None => None
    | Some relevant_lines =>
        let relevant_lines :=
          if is_empty relevant_lines
          then first_paragraph (slice content_lines 0 50) []
          else relevant_lines in
        let content := join nl relevant_lines in
        let content := replace content [nl; nl; nl] [nl; nl] in
        if is_empty (strip content) then Some (pointer_message question)
        else Some (strip content)
    end.

End Assistant.

(** ** pdf_processor.py: [PDFProcessor] *)

Module Processor.

(** An entry of [pages_content]. *)
Record Page : Type := { page_number : Z; text : str }.

(** An entry of the list [search_in_pdf] returns; its keys are
    ['page_number'], ['context'] and ['match_position']. *)
Record SearchHit : Type :=
  { hit_page_number : Z; hit_context : str; hit_match_position : Z }.

Definition heading_markers : list str :=
  [lit "1."; lit "2."; lit "3."; lit "4."; lit "5."; lit "Chapter"; lit "CHAPTER"].

(** Lines 98-111. *)
Fixpoint search_loop (query query_lower : str) (pages : list Page)
         (results : list SearchHit) : list SearchHit :=
  match pages with
  | [] => results
  | page :: rest =>
      let page_text := lower (text page) in
      if contains query_lower page_text then
        let start_idx := find page_text query_lower in
        let context_start := Z.max 0 (start_idx - 100) in
        let context_end := Z.min (len page_text) (start_idx + len query + 100) in
        let context := slice (text page) context_start context_end in
        search_loop query query_lower rest
          (results ++ [{| hit_page_number := page_number page;
                          hit_context := context;
                          hit_match_position := start_idx |}])
      else search_loop query query_lower rest results
  end.

(** Lines 93-113. *)
Definition search_in_pdf (pages_content : list Page) (query : str) : list SearchHit :=
  search_loop query (lower query) pages_content [].

(** Lines 121-125: the text of the first page with that number, or [""]. *)
Fixpoint find_page (pages : list Page) (number : Z) : str :=
  match pages with
  | [] => []
  | page :: rest =>
      if page_number page =? number then text page else find_page rest number
  end.

(** Lines 133-137: the index of the first line that holds the context, or -1. *)
Fixpoint find_context_line (needle : str) (lines : list str) (i : Z) : Z :=
  match lines with
  | [] => -1
  | line :: rest =>
      if contains needle line then i else find_context_line needle rest (i + 1)
  end.

(** Lines 143-164. *)
Definition lines_needed (mode : str) (marks age : option Z) : Z :=
  if eqb mode examination && truthy marks then
    let marks := int_of marks in
    if marks <=? 5 then 10
    else if marks <=? 10 then 20
    else if marks <=? 15 then 30
    else 30
  else if eqb mode age_appropriate && truthy age then
    let age := int_of age in
    if age <=? 5 then 10
    else if age <=? 10 then 20
    else if age <=? 15 then 30
    else 20
  else if eqb mode general then 50
  else 10.

(** Lines 175 and 178 taken together: either test ends the loop. *)
Definition is_heading (line : str) : bool :=
  (isupper line && (10 <? len line)) || startswith_any line heading_markers.

(** Lines 171-190: the loop over [i], with its four [break]s. *)
Fixpoint collect (content_lines : list str) (mode : str) (lines_needed : Z)
         (idxs : list Z) (expanded_lines : list str) : option (list str) :=
  match idxs with
  | [] => Some expanded_lines
  | i :: idxs' =>
      match getitem content_lines i with
      | None => None
      | Some raw =>
          let line := strip raw in
          if is_empty line then
            collect content_lines mode lines_needed idxs' expanded_lines
          else if isupper line && (10 <? len line) then Some expanded_lines
          else if startswith_any line heading_markers then Some expanded_lines
          else
            let expanded_lines := expanded_lines ++ [line] in
            if (eqb mode examination || eqb mode age_appropriate)
               && (lines_needed <=? len expanded_lines)
               && endswith_char line dot
            then Some expanded_lines
            else if eqb mode general && endswith_char line dot
                    && (50 <=? len expanded_lines)
            then Some expanded_lines
            else collect content_lines mode lines_needed idxs' expanded_lines
      end
  end.

(** Lines 193-196. *)
Definition finish (context : str) (expanded_lines : list str) : str :=
  if len expanded_lines <? 3 then context ++ [nl; nl] ++ join nl expanded_lines
  else join nl expanded_lines.

(** Lines 115-196. *)
Definition get_expanded_content (pages_content : list Page) (page_number : Z)
           (context mode : str) (marks age : option Z) : option str :=
  if (page_number <=? 0) || (len pages_content <? page_number) then Some context
  else
    let page_content := find_page pages_content page_number in
    if is_empty page_content then Some context
    else
      let content_lines := split_on nl page_content in
      let context_line_idx := find_context_line (strip context) content_lines 0 in
      if context_line_idx =? -1 then Some context
      else
        let lines_needed := lines_needed mode marks age in
        let start_idx := context_line_idx + 1 in
        let end_idx := Z.min (len content_lines) (start_idx + lines_needed + 10) in
        match collect content_lines mode lines_needed (range start_idx end_idx) [] with
        | None => None
        | Some expanded_lines => Some (finish context expanded_lines)
        end.

End Processor.

(** ** The [re] module, as far as the patterns of the sources go *)

Inductive regex : Type :=
| Eps : regex
| Class : (ascii -> bool) -> regex
| Cat : regex -> regex -> regex
| Star : regex -> regex
| Plus : regex -> regex.

Module Re.

(** Greedy repetition of the matcher [m], with backtracking: one more round is
    tried first, and a round that consumes nothing is refused.  [fuel] is the
    length of the input, a bound on the number of rounds. *)
Fixpoint star_loop (m : str -> (str -> option str) -> option str)
         (fuel : nat) (s : str) (k : str -> option str) : option str :=
  match fuel with
  | O => k s
  | S fuel' =>
      match m s (fun s' => if (length s' <? length s)%nat
                           then star_loop m fuel' s' k else None) with
      | Some out => Some out
      | None => k s
      end
  end.

(** A match of [r] at the start of [s], the first one in the order of the
    backtracking search: [k] is what has to match after it, and the result
    is what is left of the input. *)
Fixpoint rmatch (r : regex) (s : str) (k : str -> option str) : option str :=
  match r with
  | Eps => k s
  | Class p =>
      match s with
      | c :: t => if p c then k t else None
      | [] => None
      end
  | Cat a b => rmatch a s (fun s' => rmatch b s' k)
  | Star a => star_loop (rmatch a) (length s) s k
  | Plus a => rmatch a s (fun s' => star_loop (rmatch a) (length s') s' k)
  end.

(** The length of the match at the start of [s]. *)
Definition match_len (r : regex) (s : str) : option nat :=
  match rmatch r s (fun rest => Some rest) with
  | Some rest => Some (length s - length rest)%nat
  | None => None
  end.

(** [re.sub(r, repl, s)] for a pattern that matches no empty string: the
    matches are taken from the left and do not overlap.  [skip] counts the
    characters of the last match that are still to be passed over. *)
Fixpoint sub_skip (r : regex) (repl : str) (skip : nat) (s : str) : str :=
  match s with
  | [] => []
  | c :: t =>
      match skip with
      | S k => sub_skip r repl k t
      | O =>
          match match_len r s with
          | Some (S n) => repl ++ sub_skip r repl n t
          | _ => c :: sub_skip r repl 0 t
          end
      end
  end.

Definition sub (r : regex) (repl s : str) : str := sub_skip r repl 0 s.

(** The pattern of a literal text. *)
Definition literal (s : str) : regex :=
  fold_right (fun c r => Cat (Class (Ascii.eqb c)) r) Eps s.

End Re.

(** [str(n)] of an integer, as an f-string prints it. *)
Definition decimal (n : Z) : str := lit (NilZero.string_of_int (Z.to_int n)).

(** ** pdf_processor.py: the extraction of the text *)

Module Extraction.

Definition nul : ascii := "000"%char.

(** The class [\d] of [re]: the decimal digits, 0..9 among these code points. *)
Definition isdigit (c : ascii) : bool :=
  let n := nat_of_ascii c in ((48 <=? n) && (n <=? 57))%nat.

(** Line 63: [\s+]. *)
Definition whitespace_run : regex := Plus (Class isspace).

(** Line 69: [\(cid:\d+\)]. *)
Definition cid_code : regex :=
  Cat (Re.literal (lit "(cid:")) (Cat (Plus (Class isdigit)) (Re.literal (lit ")"))).

(** Line 72: [\n\s*\n\s*\n+]. *)
Definition newline_run : regex :=
  Cat (Class (Ascii.eqb nl))
      (Cat (Star (Class isspace))
           (Cat (Class (Ascii.eqb nl))
                (Cat (Star (Class isspace)) (Plus (Class (Ascii.eqb nl)))))).

(** Lines 57-74. *)
Definition clean_extracted_text (text : str) : str :=
  if is_empty text then []
  else
    let text := Re.sub whitespace_run (lit " ") text in
    let text := replace text [nul] [] in
    let text := Re.sub cid_code [] text in
    let text := Re.sub newline_run [nl; nl] text in
    strip text.

(** Line 37: what a page adds to the full text. *)
Definition page_block (number : Z) (cleaned_text : str) : str :=
  nl :: lit "--- Page " ++ decimal number ++ lit " ---" ++ nl :: cleaned_text ++ [nl].

(** Lines 29-37: the loop over the pages.  [pages] holds what
    [page.extract_text()] gave for each page, [None] or a text. *)
Fixpoint extract_loop (page_num : Z) (pages : list (option str))
         (pages_content : list Processor.Page) (full_text : str)
  : list Processor.Page * str :=
  match pages with
  | [] => (pages_content, full_text)
  | page_text :: rest =>
      match page_text with
      | Some (c :: t) =>
          let cleaned_text := clean_extracted_text (c :: t) in
          extract_loop (page_num + 1) rest
            (pages_content ++ [{| Processor.page_number := page_num + 1;
                                  Processor.text := cleaned_text |}])
            (full_text ++ page_block (page_num + 1) cleaned_text)
      | _ => extract_loop (page_num + 1) rest pages_content full_text
      end
  end.

(** Lines 18-39: the pages kept and the full text, for the texts of the
    pages of the file. *)
Definition extract_text_from_pdf (pages : list (option str))
  : list Processor.Page * str :=
  extract_loop 0 pages [] [].

End Extraction.

(** ** ai_assistant_remote.py: the answers *)

(** The characters of the literals of the source that are outside ASCII.
    Each is one code point, caseless and not white space, and is given a
    character of its own from 134 on. *)
Module Glyph.

Definition cross_mark : ascii := ascii_of_nat 134.
Definition page_facing_up : ascii := ascii_of_nat 135.
Definition globe : ascii := ascii_of_nat 136.
Definition light_bulb : ascii := ascii_of_nat 137.
Definition bullet : ascii := ascii_of_nat 138.
Definition memo : ascii := ascii_of_nat 139.
Definition graduation_cap : ascii := ascii_of_nat 140.
Definition books : ascii := ascii_of_nat 141.

End Glyph.

Definition dquote : ascii := "034"%char.
Definition colon : ascii := ":"%char.

(** What the request to the inference endpoint came to (lines 56-75). *)
Inductive remote_outcome : Type :=
| answered : option str -> remote_outcome
    (* status 200 and a non-empty list: the ['generated_text'] of its first
       entry, when it has one *)
| unusable_payload : remote_outcome
    (* status 200 and anything else *)
| model_loading : remote_outcome
    (* status 503 *)
| other_status : remote_outcome
| request_failed : remote_outcome.
    (* an exception in the [try] block *)

Module Responses.

Definition no_pdf_message : str :=
  [Glyph.cross_mark] ++ lit " No PDF content available. Please upload a PDF first.".

(** The heading looked for on line 414. *)
Definition pdf_heading : str := [Glyph.page_facing_up] ++ lit " From PDF Content:".

Definition mode_header (mode : str) : str :=
  if eqb mode examination then [Glyph.memo] ++ lit " **Examination Answer:**"
  else if eqb mode age_appropriate
       then [Glyph.graduation_cap] ++ lit " **Age-Appropriate Explanation:**"
       else [Glyph.books] ++ lit " **Study Response:**".

(** Lines 372-377, and again 426-431: the header of the mode, an empty line,
    the response. *)
Definition add_mode_header (mode response : str) : str :=
  mode_header mode ++ [nl; nl] ++ response.

(** Lines 116-128. *)
Definition _get_age_instruction (age : option Z) (difficulty : str) : str :=
  let age := match age with
             | None => 16
             | Some age => age
             end in
  if age <=? 10
  then lit "Explain simply for a " ++ decimal age ++ lit "-year-old using easy words."
  else if age <=? 15
  then lit "Explain for a " ++ decimal age ++ lit "-year-old student clearly."
  else if age <=? 18
  then lit "Explain for a " ++ decimal age ++ lit "-year-old with " ++ difficulty ++ lit " level."
  else lit "Explain for an adult with " ++ difficulty ++ lit " level.".

(** Lines 357-377. *)
Definition _create_pdf_based_response (question mode : str) (marks age : option Z)
           (extracted_content : str) : str :=
  let response :=
    join nl
    [lit "## " ++ [Glyph.page_facing_up] ++ lit " From PDF Content:";
     extracted_content;
     lit "";
     lit "## " ++ [Glyph.globe] ++ lit " General Knowledge:";
     lit "Based on the question " ++ [dquote] ++ question ++ [dquote] ++ lit ", the extracted content above from your PDF contains the relevant information you need to understand this topic.";
     lit "";
     lit "## " ++ [Glyph.light_bulb] ++ lit " Key Takeaways:";
     [Glyph.bullet] ++ lit " The PDF content provides specific details about your question";
     [Glyph.bullet] ++ lit " Focus on understanding the main concepts presented above";
     [Glyph.bullet] ++ lit " Consider how this information relates to other parts of your document";
     [Glyph.bullet] ++ lit " Use the search feature to find additional related content"] in
  add_mode_header mode response.

(** Lines 379-408. *)
Definition _create_prompt_with_content (question mode : str) (marks age : option Z)
           (difficulty extracted_content : str) : str :=
  let base_prompt :=
    join nl
    [lit "You are an educational AI assistant. Use the provided PDF content to answer the question.";
     lit "";
     lit "Relevant PDF Content: " ++ extracted_content;
     lit "";
     lit "Question: " ++ question;
     lit "";
     lit "Please structure your answer with these clear headings:";
     lit "";
     lit "## " ++ [Glyph.page_facing_up] ++ lit " From PDF Content:";
     lit "[Answer based on the PDF content provided above]";
     lit "";
     lit "## " ++ [Glyph.globe] ++ lit " General Knowledge:";
     lit "[Additional relevant information from your knowledge base]";
     lit "";
     lit "## " ++ [Glyph.light_bulb] ++ lit " Key Takeaways:";
     lit "[Main points to remember]";
     lit ""] in
  if eqb mode examination then
    let marks_instruction :=
      if truthy marks
      then lit "This is a " ++ decimal (int_of marks) ++ lit "-mark question. "
      else [] in
    base_prompt ++ [nl] ++ marks_instruction ++ lit "Format as a structured exam answer."
  else if eqb mode age_appropriate then
    base_prompt ++ [nl] ++ _get_age_instruction age difficulty
  else base_prompt.

(** Lines 410-431. *)
Definition _format_response_with_content (response mode extracted_content : str) : str :=
  let response :=
    if negb (contains pdf_heading response) then
      join nl
      [lit "## " ++ [Glyph.page_facing_up] ++ lit " From PDF Content:";
       extracted_content;
       lit "";
       lit "## " ++ [Glyph.globe] ++ lit " General Knowledge:";
       response;
       lit "";
       lit "## " ++ [Glyph.light_bulb] ++ lit " Key Takeaways:";
       [Glyph.bullet] ++ lit " Review the PDF content above for specific details";
       [Glyph.bullet] ++ lit " Use the AI explanation to understand broader context";
       [Glyph.bullet] ++ lit " Connect these concepts to other topics in your study material"]
    else response in
  add_mode_header mode response.

(** Lines 26-75.  [model_loaded] is the field of the object, and [remote]
    gives, for the prompt sent, what the request came to. *)
Definition generate_response (pdf_content : str) (model_loaded : bool)
           (remote : str -> remote_outcome) (user_question mode : str)
           (marks age : option Z) (difficulty : str) : option str :=
  if is_empty pdf_content then Some no_pdf_message
  else
    match Assistant._extract_relevant_content pdf_content user_question mode marks age with
    | None => None
    | Some extracted_content =>
        if negb model_loaded then
          Some (_create_pdf_based_response user_question mode marks age extracted_content)
        else
          let prompt := _create_prompt_with_content user_question mode marks age
                                                    difficulty extracted_content in
          match remote prompt with
          | answered generated_text =>
              let generated_text :=
                match generated_text with
                | Some text => text
                | None => lit "No response generated"
                end in
              Some (_format_response_with_content generated_text mode extracted_content)
          | unusable_payload | model_loading | other_status | request_failed =>
              Some (_create_pdf_based_response user_question mode marks age
                                               extracted_content)
          end
    end.

(** Lines 575-584: the loop over the lines. *)
Fixpoint potential_terms_loop (content_lines potential_terms : list str) : list str :=
  match content_lines with
  | [] => potential_terms
  | line :: rest =>
      let line := strip line in
      if is_empty line then potential_terms_loop rest potential_terms
      else if contains [colon] line && (len line <? 200)
      then potential_terms_loop rest (potential_terms ++ [line])
      else if isupper line && (3 <? len line) && (len line <? 50)
      then potential_terms_loop rest (potential_terms ++ [line])
      else if startswith_any line [lit "Definition:"; lit "Def:"; lit "Term:"]
      then potential_terms_loop rest (potential_terms ++ [line])
      else potential_terms_loop rest potential_terms
  end.



End Responses.

(** ** Vocabulary of the statements *)

(** Several lines as one text. *)
Definition lines (ls : list str) : str := join nl ls.

(** Nothing but white space. *)
Definition blank (s : str) : Prop := Forall (fun c => isspace c = true) s.

(** A string that neither begins nor ends with white space. *)
Definition tight (s : str) : Prop :=
  (exists c t, s = c :: t /\ isspace c = false) /\
  (exists t c, s = t ++ [c] /\ isspace c = false).

(** A trimmed line of a text: not empty, no newline, no white space at its ends. *)
Definition clean (l : str) : Prop := l <> [] /\ ~ In nl l /\ tight l.

(** Three newlines in a row. *)
Definition nl3 : str := [nl; nl; nl].

(** The line at a non-negative index, [[]] past the end. *)
Definition line_at (content_lines : list str) (j : Z) : str :=
  nth (Z.to_nat j) content_lines [].

(** [picked] is [js] with some entries left out. *)
Inductive subseq {A : Type} : list A -> list A -> Prop :=
| subseq_nil : forall l, subseq [] l
| subseq_skip : forall x l1 l2, subseq l1 l2 -> subseq l1 (x :: l2)
| subseq_keep : forall x l1 l2, subseq l1 l2 -> subseq (x :: l1) (x :: l2).

(** The trimmed line at an index. *)
Definition trimmed_at (content_lines : list str) (j : Z) : str :=
  strip (line_at content_lines j).

(** The table of section 4.1 of the specification, row by row: the mode, the
    marks and the age, and the number of lines the row gives. *)
Inductive table_4_1 : str -> option Z -> option Z -> Z -> Prop :=
| row_examination_5 : forall marks age,
    marks <= 5 -> table_4_1 examination (Some marks) age 10
| row_examination_10 : forall marks age,
    5 < marks <= 10 -> table_4_1 examination (Some marks) age 20
| row_examination_15 : forall marks age,
    10 < marks <= 15 -> table_4_1 examination (Some marks) age 30
| row_examination_above : forall marks age,
    15 < marks -> table_4_1 examination (Some marks) age 30
| row_age_5 : forall marks age,
    age <= 5 -> table_4_1 age_appropriate marks (Some age) 10
| row_age_10 : forall marks age,
    5 < age <= 10 -> table_4_1 age_appropriate marks (Some age) 20
| row_age_15 : forall marks age,
    10 < age <= 15 -> table_4_1 age_appropriate marks (Some age) 30
| row_age_above : forall marks age,
    15 < age -> table_4_1 age_appropriate marks (Some age) 20
| row_general : forall marks age, table_4_1 general marks age 50
| row_other_mode : forall mode marks age,
    mode <> examination -> mode <> age_appropriate -> mode <> general ->
    table_4_1 mode marks age 10
| row_examination_no_marks : forall age, table_4_1 examination None age 10
| row_age_no_age : forall marks, table_4_1 age_appropriate marks None 10.

(** The six boundary values of marks and of age. *)
Definition boundaries : list Z := [5; 6; 10; 11; 15; 16].

(** The index, counted from [b], of the first line with a property. *)
Fixpoint first_index (P : str -> bool) (ls : list str) (b : Z) : option Z :=
  match ls with
  | [] => None
  | l :: rest => if P l then Some b else first_index P rest (b + 1)
  end.

(** Line [k] is the first line of [ls] with the property [P]. *)
Definition first_line_with (P : str -> bool) (ls : list str) (k : Z) : Prop :=
  0 <= k < len ls /\ P (line_at ls k) = true /\
  forall j, 0 <= j < k -> P (line_at ls j) = false.

(** A page number within [1 .. len(pages_content)] whose page has some text. *)
Definition valid_page (pages_content : list Processor.Page) (number : Z) : Prop :=
  1 <= number <= len pages_content /\ Processor.find_page pages_content number <> [].

(** The lines of the page with that number. *)
Definition page_lines (pages_content : list Processor.Page) (number : Z) : list str :=
  split_on nl (Processor.find_page pages_content number).

(** The indices the expansion loop runs over, after the anchor line [k]. *)
Definition expansion_window (content_lines : list str) (mode : str)
           (marks age : option Z) (k : Z) : list Z :=
  range (k + 1)
        (Z.min (len content_lines) (k + 1 + Processor.lines_needed mode marks age + 10)).

(** The page holds the query, whatever the case of the letters. *)
Definition page_matches (query : str) (page : Processor.Page) : bool :=
  contains (lower query) (lower (Processor.text page)).


(** [w] occurs in [s] at offset [pos], and at no smaller offset. *)
Definition first_occurrence (w s : str) (pos : Z) : Prop :=
  0 <= pos /\ pos + len w <= len s /\
  startswith (skipn (Z.to_nat pos) s) w = true /\
  forall j, 0 <= j < pos -> startswith (skipn (Z.to_nat j) s) w = false.

(** The hit of a page: its number, the offset [pos] of the first match in
    the lowercased text, and the characters of the text of the page itself
    from offset [pos - 100] to offset [pos + len query + 100], within the
    page. *)
Definition hit_of_page (query : str) (page : Processor.Page)
           (hit : Processor.SearchHit) : Prop :=
  let pos := Processor.hit_match_position hit in
  let text := Processor.text page in
  let from := Z.max 0 (pos - 100) in
  let to := Z.min (len text) (pos + len query + 100) in
  Processor.hit_page_number hit = Processor.page_number page /\
  first_occurrence (lower query) (lower text) pos /\
  Processor.hit_context hit = firstn (Z.to_nat (to - from)) (skipn (Z.to_nat from) text) /\
  len (Processor.hit_context hit) <= 200 + len query.

(** The line holds, whatever the case of its letters, a word of the question
    that is longer than 3 characters. *)
Definition holds_question_word (question line : str) : bool :=
  Assistant.line_matches (split (lower question)) (lower line).

(** The indices the excerpt loop runs over, for a first match on line [i]. *)
Definition excerpt_window (content_lines : list str) (mode : str)
           (marks age : option Z) (i : Z) : list Z :=
  range (Z.max 0 (i - 2))
        (Z.min (len content_lines)
               (Z.max 0 (i - 2) + Assistant.lines_needed mode marks age + 5)).

(** Lines 347-355: what is returned for the lines gathered. *)
Definition post_process (question : str) (relevant_lines : list str) : str :=
  let content := replace (join nl relevant_lines) [nl; nl; nl] [nl; nl] in
  if is_empty (strip content) then Assistant.pointer_message question
  else strip content.

(** No line of the text holds a word of the question longer than [k]. *)
Definition no_line_holds_word_longer_than (k : Z) (pdf_content question : str) : Prop :=
  forall line word,
    In line (split_on nl pdf_content) -> In word (split (lower question)) ->
    k < len word -> contains word (lower line) = false.

(** At most 8 lines, each non-blank, longer than 20 characters and the
    trimmed text of one of the first 50 lines of the document. *)
Definition fallback_excerpt (pdf_content out : str) : Prop :=
  len (split_on nl out) <= 8 /\
  Forall (fun l => strip l <> [] /\ 20 < len l /\
                   exists raw, In raw (firstn 50 (split_on nl pdf_content)) /\
                               l = strip raw)
         (split_on nl out).

(** The marker line of a page in the full text. *)
Definition page_marker (number : Z) : str :=
  lit "--- Page " ++ decimal number ++ lit " ---".

(** ** Sample inputs *)

Definition sample_page : Processor.Page :=
  {| Processor.page_number := 1;
     Processor.text :=
       lines [lit "Cells"; lit "The anchor sentence."; lit "  First. ";
              lit ""; lit "Second."; lit "Third."; lit "CHAPTER 2"; lit "Later."] |}.

Definition sample_heading_lines : list str :=
  [lit "Leaves are green."; lit "CHAPTER 2"; lit "Roots grow down."].

Definition sample_blank_start : str :=
  lines [lit ""; lit "Biology"; lit "Osmosis moves water."].

Definition sample_padded_start : str :=
  lines [lit "  Biology"; lit "Notes"; lit "Osmosis moves water."].

Definition sample_short : str := lines [lit "Cats purr."; lit "Dogs bark."].

Definition sample_document : str :=
  lines [lit "Plants make sugar from light and water."; lit "tiny";
         lit "  Roots take up water and minerals.  "].


(** A page of 150 capital letters I with dot above and an x. *)
Definition dotted_page : Processor.Page :=
  {| Processor.page_number := 1;
     Processor.text := repeat capital_i_dot 150 ++ lit "x" |}.

Definition sample_question_newlines : str :=
  lit "Why?" ++ [nl; nl; nl] ++ lit "Explain.".

(** * The code on small inputs *)

Example strip_ex : strip (lit "  a b  ") = lit "a b".
Proof. reflexivity. Qed.
(** [lower] lengthens a string that holds U+0130. *)
Example lower_ex :
  lower (capital_i_dot :: lit "STANBUL") = lit "i" ++ combining_dot :: lit "stanbul".
Proof. reflexivity. Qed.

Example split_ex : split (lit " what  is photosynthesis ") = [lit "what"; lit "is"; lit "photosynthesis"].
Proof. reflexivity. Qed.
Example split_on_ex : split_on nl (nl :: lit "ab" ++ [nl]) = [[]; lit "ab"; []].
Proof. reflexivity. Qed.
Example replace_ex : replace (lit "aaaaXaaa") (lit "aaa") (lit "bb") = lit "bbaXbb".
Proof. reflexivity. Qed.
Example slice_ex : slice (lit "abcdef") 1 4 = lit "bcd".
Proof. reflexivity. Qed.
Example find_ex : find (lit "abcabc") (lit "ca") = 2.
Proof. reflexivity. Qed.

Example extract_ex :
  Assistant._extract_relevant_content
    (lines [lit "Intro"; lit ""; lit "  Plants use photosynthesis.  "; lit "More text."])
    (lit "What is Photosynthesis") general None None
  = Some (lines [lit "Intro"; lit "Plants use photosynthesis."; lit "More text."]).
Proof. vm_compute. reflexivity. Qed.

Example expanded_ex :
  Processor.get_expanded_content
    [{| Processor.page_number := 1; Processor.text := lines [lit "a"; lit "anchor here"; lit "b"; lit "c"; lit "d"] |}]
    1 (lit " anchor ") general None None
  = Some (lines [lit "b"; lit "c"; lit "d"]).
Proof. vm_compute. reflexivity. Qed.

(** A heading right after the match is collected by the excerpt loop, which
    holds one line only; the expansion loop stops at it. *)
Example heading_in_excerpt :
  Assistant._extract_relevant_content (lines sample_heading_lines) (lit "leaves")
                                      general None None
  = Some (lines [lit "Leaves are green."; lit "CHAPTER 2"; lit "Roots grow down."]).
Proof. vm_compute. reflexivity. Qed.

Example heading_in_expansion :
  Processor.get_expanded_content
    [{| Processor.page_number := 1; Processor.text := lines sample_heading_lines |}]
    1 (lit "Leaves") general None None
  = Some (lit "Leaves" ++ [nl; nl]).
Proof. vm_compute. reflexivity. Qed.

Example expanded_sample :
  Processor.get_expanded_content [sample_page] 1 (lit " anchor ") examination (Some 4) None
  = Some (lines [lit "First."; lit "Second."; lit "Third."]).
Proof. vm_compute. reflexivity. Qed.

Example search_sample :
  Processor.search_in_pdf
    [{| Processor.page_number := 1; Processor.text := lit "The CELL is small." |};
     {| Processor.page_number := 3; Processor.text := lit "Roots and leaves." |};
     {| Processor.page_number := 4; Processor.text := lit "A cell wall; a cell." |}]
    (lit "Cell")
  = [{| Processor.hit_page_number := 1; Processor.hit_context := lit "The CELL is small.";
        Processor.hit_match_position := 4 |};
     {| Processor.hit_page_number := 4; Processor.hit_context := lit "A cell wall; a cell.";
        Processor.hit_match_position := 2 |}].
Proof. vm_compute. reflexivity. Qed.

(** One pass of [replace] turns four newlines into three: the step of line
    350 would not bring every run down to two, but the lines it is applied to
    never hold two newlines in a row. *)
Example replace_four_newlines :
  replace [nl; nl; nl; nl] [nl; nl; nl] [nl; nl] = [nl; nl; nl].
Proof. reflexivity. Qed.

Example fallback_sample :
  Assistant._extract_relevant_content sample_document (lit "what is a volcano")
                                      general None None
  = Some (lines [lit "Plants make sugar from light and water.";
                 lit "Roots take up water and minerals."]).
Proof. vm_compute. reflexivity. Qed.

Example clean_sample :
  Extraction.clean_extracted_text
    (lit "  Cells" ++ [nl; nl; nl] ++ lit "divide(cid:12)." ++ [Extraction.nul] ++ lit "	Fast. ")
  = lit "Cells divide. Fast.".
Proof. vm_compute. reflexivity. Qed.

Example extract_sample :
  Extraction.extract_text_from_pdf [Some (lit "One"); None; Some (lit "Three" ++ [nl] ++ lit "3")]
  = ([{| Processor.page_number := 1; Processor.text := lit "One" |};
      {| Processor.page_number := 3; Processor.text := lit "Three 3" |}],
     lines [lit ""; lit "--- Page 1 ---"; lit "One"; lit ""; lit "--- Page 3 ---";
            lit "Three 3"; lit ""]).
Proof. vm_compute. reflexivity. Qed.

(** The pattern of line 72 on a text that still has its newlines. *)
Example newline_run_sample :
  Re.sub Extraction.newline_run [nl; nl] (lit "a" ++ [nl] ++ lit " " ++ [nl; nl; nl] ++ lit "b" ++ [nl; nl] ++ lit "c")
  = lit "a" ++ [nl; nl] ++ lit "b" ++ [nl; nl] ++ lit "c".
Proof. vm_compute. reflexivity. Qed.

Example age_instruction_sample :
  Responses._get_age_instruction (Some 17) (lit "hard")
  = lit "Explain for a 17-year-old with hard level.".
Proof. vm_compute. reflexivity. Qed.

Example generate_response_sample :
  Responses.generate_response sample_short false (fun _ => request_failed)
                              (lit "cats") examination (Some 5) None (lit "medium")
  = Some (join nl
            [[Glyph.memo] ++ lit " **Examination Answer:**";
             lit "";
             lit "## " ++ [Glyph.page_facing_up] ++ lit " From PDF Content:";
             lit "Cats purr.";
             lit "Dogs bark.";
             lit "";
             lit "## " ++ [Glyph.globe] ++ lit " General Knowledge:";
             lit "Based on the question " ++ [dquote] ++ lit "cats" ++ [dquote] ++
               lit ", the extracted content above from your PDF contains the relevant information you need to understand this topic.";
             lit "";
             lit "## " ++ [Glyph.light_bulb] ++ lit " Key Takeaways:";
             [Glyph.bullet] ++ lit " The PDF content provides specific details about your question";
             [Glyph.bullet] ++ lit " Focus on understanding the main concepts presented above";
             [Glyph.bullet] ++ lit " Consider how this information relates to other parts of your document";
             [Glyph.bullet] ++ lit " Use the search feature to find additional related content"]).
Proof. vm_compute. reflexivity. Qed.

Example potential_terms_sample :
  Responses.potential_terms_loop
    [lit "  Osmosis: movement of water "; lit "CELL BIOLOGY"; lit "plain text"; lit ""; lit "ABC"] []
  = [lit "Osmosis: movement of water"; lit "CELL BIOLOGY"].
Proof. vm_compute. reflexivity. Qed.

(** * Facts about the string operations *)

#[local] Arguments Ascii.eqb : simpl never.

Section StringFacts.

Lemma eqb_eq (a b : str) : eqb a b = true <-> a = b.
Proof.
  revert b; induction a as [|x a IH]; intros [|y b]; simpl; split;
    try congruence; try reflexivity.
  - intros H. apply andb_true_iff in H as [Hx Hab].
    apply Ascii.eqb_eq in Hx. apply IH in Hab. congruence.
  - intros H. inversion H; subst. rewrite Ascii.eqb_refl. simpl.
    now apply IH.
Qed.

Lemma eqb_refl (a : str) : eqb a a = true.
Proof. now apply eqb_eq. Qed.

Lemma eqb_neq (a b : str) : eqb a b = false <-> a <> b.
Proof.
  split.
  - intros H E. apply eqb_eq in E. congruence.
  - intros H. destruct (eqb a b) eqn:E; [|reflexivity].
    apply eqb_eq in E. contradiction.
Qed.

Lemma lower_app (a b : str) : lower (a ++ b) = lower a ++ lower b.
Proof. apply flat_map_app. Qed.

Lemma lower_cons (c : ascii) (s : str) : lower (c :: s) = lower_chars c ++ lower s.
Proof. reflexivity. Qed.

Lemma lower_chars_cases (c : ascii) :
  (c = capital_i_dot /\ lower_chars c = ["i"%char; combining_dot]) \/
  (c <> capital_i_dot /\ lower_chars c = [lower_char c]).
Proof.
  unfold lower_chars. destruct (Ascii.eqb c capital_i_dot) eqn:E.
  - left. apply Ascii.eqb_eq in E. now split.
  - right. apply Ascii.eqb_neq in E. now split.
Qed.

(** [lower] never shortens a string. *)
Lemma length_lower_le (s : str) : (length s <= length (lower s))%nat.
Proof.
  induction s as [|c s IH]; [apply Nat.le_refl|].
  rewrite lower_cons, length_app. cbn [length].
  destruct (lower_chars_cases c) as [[_ E]|[_ E]]; rewrite E; cbn [length]; lia.
Qed.

Lemma len_lower_le (s : str) : len s <= len (lower s).
Proof. unfold len. pose proof (length_lower_le s). lia. Qed.




Lemma len_nonneg {A : Type} (l : list A) : 0 <= len l.
Proof. unfold len. lia. Qed.

Lemma len_app {A : Type} (l1 l2 : list A) : len (l1 ++ l2) = len l1 + len l2.
Proof. unfold len. rewrite length_app. lia. Qed.

Lemma is_empty_true {A : Type} (l : list A) : is_empty l = true <-> l = [].
Proof. destruct l; simpl; split; congruence. Qed.

Lemma is_empty_false {A : Type} (l : list A) : is_empty l = false <-> l <> [].
Proof. destruct l; simpl; split; congruence. Qed.

(** *** [startswith] and [contains] *)

Lemma startswith_app (p t : str) : startswith (p ++ t) p = true.
Proof.
  induction p as [|x p IH]; simpl; [reflexivity|].
  now rewrite Ascii.eqb_refl.
Qed.

Lemma startswith_iff (s p : str) :
  startswith s p = true <-> exists t, s = p ++ t.
Proof.
  split.
  - revert s; induction p as [|x p IH]; intros s H.
    + now exists s.
    + destruct s as [|y s]; simpl in H; [discriminate|].
      apply andb_true_iff in H as [Hx Hp].
      apply Ascii.eqb_eq in Hx. subst y.
      destruct (IH _ Hp) as [t ->]. now exists t.
  - intros [t ->]. apply startswith_app.
Qed.

Lemma contains_iff (w s : str) :
  contains w s = true <-> exists a b, s = a ++ w ++ b.
Proof.
  split.
  - induction s as [|c s IH]; simpl; intros H.
    + rewrite orb_false_r in H. apply startswith_iff in H as [t Ht].
      now exists [], t.
    + apply orb_true_iff in H as [H|H].
      * apply startswith_iff in H as [t Ht]. now exists [], t.
      * destruct (IH H) as (a & b & ->). now exists (c :: a), b.
  - intros (a & b & ->). induction a as [|c a IH]; simpl.
    + destruct (w ++ b) eqn:E; simpl.
      * destruct w; [reflexivity|discriminate].
      * rewrite <- E, startswith_app. reflexivity.
    + rewrite IH. apply orb_true_r.
Qed.

Lemma contains_nil (s : str) : contains [] s = true.
Proof. destruct s; reflexivity. Qed.

Lemma contains_In (w s : str) (c : ascii) :
  contains w s = true -> In c w -> In c s.
Proof.
  intros H Hc. apply contains_iff in H as (a & b & ->).
  apply in_or_app. right. apply in_or_app. now left.
Qed.

(** *** [lstrip], [rstrip], [strip] *)

Lemma lstrip_decomp (s : str) : exists p, s = p ++ lstrip s /\ blank p.
Proof.
  induction s as [|c s (p & Hp & Hb)]; simpl.
  - exists []. split; [reflexivity|constructor].
  - destruct (isspace c) eqn:E.
    + exists (c :: p). split; [simpl; congruence|now constructor].
    + exists []. split; [reflexivity|constructor].
Qed.

Lemma lstrip_head (s : str) :
  lstrip s = [] \/ exists c t, lstrip s = c :: t /\ isspace c = false.
Proof.
  induction s as [|c s IH]; simpl; [now left|].
  destruct (isspace c) eqn:E; [exact IH|].
  right. now exists c, s.
Qed.

Lemma lstrip_id (c : ascii) (t : str) : isspace c = false -> lstrip (c :: t) = c :: t.
Proof. intros H. simpl. now rewrite H. Qed.

Lemma blank_rev (s : str) : blank s -> blank (rev s).
Proof. unfold blank. apply Forall_rev. Qed.

Lemma rstrip_decomp (s : str) : exists q, s = rstrip s ++ q /\ blank q.
Proof.
  unfold rstrip. destruct (lstrip_decomp (rev s)) as (p & Hp & Hb).
  exists (rev p). split; [|now apply blank_rev].
  rewrite <- rev_app_distr, <- Hp. now rewrite rev_involutive.
Qed.

Lemma rstrip_last (s : str) :
  rstrip s = [] \/ exists t c, rstrip s = t ++ [c] /\ isspace c = false.
Proof.
  unfold rstrip. destruct (lstrip_head (rev s)) as [E|(c & t & E & Hc)].
  - left. now rewrite E.
  - right. exists (rev t), c. now rewrite E.
Qed.

Lemma rstrip_id (t : str) (c : ascii) :
  isspace c = false -> rstrip (t ++ [c]) = t ++ [c].
Proof.
  intros H. unfold rstrip. rewrite rev_app_distr. simpl. rewrite H.
  simpl. now rewrite rev_involutive.
Qed.

Lemma strip_decomp (s : str) :
  exists p q, s = p ++ strip s ++ q /\ blank p /\ blank q.
Proof.
  unfold strip. destruct (lstrip_decomp s) as (p & Hp & Hbp).
  destruct (rstrip_decomp (lstrip s)) as (q & Hq & Hbq).
  exists p, q. repeat split; try assumption. now rewrite <- Hq.
Qed.

Lemma strip_tight (s : str) : strip s <> [] -> tight (strip s).
Proof.
  intros Hne. unfold strip in *.
  destruct (rstrip_last (lstrip s)) as [E|(t & c & E & Hc)]; [contradiction|].
  split; [|now exists t, c].
  destruct (rstrip_decomp (lstrip s)) as (q & Hq & _).
  destruct (lstrip_head s) as [E0|(c0 & t0 & E0 & Hc0)].
  - rewrite E0 in Hne. now contradiction Hne.
  - destruct (rstrip (lstrip s)) as [|x r] eqn:Er; [contradiction|].
    rewrite E0 in Hq. simpl in Hq. inversion Hq; subst x.
    now exists c0, r.
Qed.

Lemma tight_strip (s : str) : tight s -> strip s = s.
Proof.
  intros [(c & t & E & Hc) (t' & c' & E' & Hc')]. unfold strip.
  rewrite E, lstrip_id, <- E, E' by assumption. now apply rstrip_id.
Qed.

Lemma strip_idempotent (s : str) : strip (strip s) = strip s.
Proof.
  destruct (strip s) eqn:E; [reflexivity|].
  rewrite <- E. apply tight_strip, strip_tight. congruence.
Qed.

Lemma strip_In (s : str) (c : ascii) : In c (strip s) -> In c s.
Proof.
  intros H. destruct (strip_decomp s) as (p & q & E & _).
  rewrite E. apply in_or_app. right. apply in_or_app. now left.
Qed.

Lemma strip_nonblank (s : str) (c : ascii) :
  In c s -> isspace c = false -> strip s <> [].
Proof.
  intros Hin Hc E. destruct (strip_decomp s) as (p & q & Es & Hp & Hq).
  rewrite E in Es. simpl in Es. rewrite Es in Hin.
  apply in_app_or in Hin as [Hin|Hin];
    [eapply Forall_forall in Hp|eapply Forall_forall in Hq]; eauto; congruence.
Qed.

(** *** [split_on], [split] and [join] *)

Lemma split_on_not_nil (sep : ascii) (s : str) : split_on sep s <> [].
Proof.
  induction s as [|c s IH]; simpl; [discriminate|].
  destruct (Ascii.eqb c sep); [discriminate|].
  destruct (split_on sep s); discriminate.
Qed.

Lemma split_on_no_sep (sep : ascii) (s : str) :
  Forall (fun l => ~ In sep l) (split_on sep s).
Proof.
  induction s as [|c s IH]; simpl.
  - constructor; [intros []|constructor].
  - destruct (Ascii.eqb c sep) eqn:E.
    + constructor; [intros []|exact IH].
    + destruct (split_on sep s) as [|l ls]; inversion IH; subst;
        constructor; try assumption; try constructor.
      * intros [H|[]]. subst. now rewrite Ascii.eqb_refl in E.
      * intros [H|H]; [subst; now rewrite Ascii.eqb_refl in E|contradiction].
Qed.

Lemma split_on_line (sep : ascii) (l : str) :
  ~ In sep l -> split_on sep l = [l].
Proof.
  induction l as [|c l IH]; simpl; intros H; [reflexivity|].
  destruct (Ascii.eqb c sep) eqn:E.
  - apply Ascii.eqb_eq in E. subst. contradiction H. now left.
  - rewrite IH; [reflexivity|]. intros Hin. apply H. now right.
Qed.

Lemma split_on_app (sep : ascii) (l t : str) :
  ~ In sep l -> split_on sep (l ++ sep :: t) = l :: split_on sep t.
Proof.
  induction l as [|c l IH]; simpl; intros H.
  - now rewrite Ascii.eqb_refl.
  - destruct (Ascii.eqb c sep) eqn:E.
    + apply Ascii.eqb_eq in E. subst. contradiction H. now left.
    + rewrite IH; [reflexivity|]. intros Hin. apply H. now right.
Qed.

Lemma split_on_join (sep : ascii) (ls : list str) :
  ls <> [] -> Forall (fun l => ~ In sep l) ls -> split_on sep (join sep ls) = ls.
Proof.
  induction ls as [|l ls IH]; intros Hne H; [contradiction|].
  inversion H as [|? ? Hl Hls]; subst.
  destruct ls as [|l' ls']; [now apply split_on_line|].
  change (join sep (l :: l' :: ls')) with (l ++ sep :: join sep (l' :: ls')).
  rewrite split_on_app by assumption. f_equal. apply IH; [discriminate|assumption].
Qed.

Lemma join_split_on (sep : ascii) (s : str) : join sep (split_on sep s) = s.
Proof.
  induction s as [|c s IH]; simpl; [reflexivity|].
  destruct (Ascii.eqb c sep) eqn:E.
  - apply Ascii.eqb_eq in E. subst c.
    pose proof (split_on_not_nil sep s) as Hne.
    destruct (split_on sep s) as [|l ls]; [contradiction|].
    simpl in *. now rewrite IH.
  - pose proof (split_on_not_nil sep s) as Hne.
    destruct (split_on sep s) as [|l ls]; [contradiction|].
    destruct ls; simpl in *; now rewrite <- IH.
Qed.

Lemma split_aux_words (s : str) :
  Forall (fun c => isspace c = false) (fst (split_ws_aux s)) /\
  Forall (fun w => w <> [] /\ Forall (fun c => isspace c = false) w)
         (snd (split_ws_aux s)).
Proof.
  induction s as [|c s [IHw IHws]]; simpl; [split; constructor|].
  destruct (split_ws_aux s) as [w ws]. simpl in *.
  destruct (isspace c) eqn:E; simpl.
  - split; [constructor|].
    destruct w; simpl; [assumption|].
    constructor; [split; [discriminate|assumption]|assumption].
  - split; [now constructor|assumption].
Qed.

(** The words of [s.split()] are non-empty and hold no white space. *)
Lemma split_words (s : str) :
  Forall (fun w => w <> [] /\ Forall (fun c => isspace c = false) w) (split s).
Proof.
  unfold split. pose proof (split_aux_words s) as [Hw Hws].
  destruct (split_ws_aux s) as [w ws]. simpl in *.
  destruct w; simpl; [assumption|].
  constructor; [split; [discriminate|assumption]|assumption].
Qed.

(** *** Lines that were trimmed and are not empty *)

Lemma clean_strip (raw : str) : ~ In nl raw -> strip raw <> [] -> clean (strip raw).
Proof.
  intros Hnl Hne. repeat split; try assumption.
  - intros H. apply Hnl. now apply strip_In.
  - now apply strip_tight.
  - now apply strip_tight.
Qed.

Lemma clean_head (l : str) : clean l -> exists c t, l = c :: t /\ c <> nl.
Proof.
  intros (Hne & Hnl & _). destruct l as [|c t]; [contradiction|].
  exists c, t. split; [reflexivity|]. intros ->. apply Hnl. now left.
Qed.

Lemma join_clean_head (ls : list str) :
  ls <> [] -> Forall clean ls ->
  exists c t, join nl ls = c :: t /\ c <> nl /\ isspace c = false.
Proof.
  intros Hne H. destruct ls as [|l ls]; [contradiction|].
  inversion H as [|? ? Hl Hls]; subst.
  destruct (clean_head l Hl) as (c & t & -> & Hc).
  destruct Hl as (_ & _ & (c0 & t0 & E0 & Hc0) & _). inversion E0; subst c0 t0.
  destruct ls; simpl; eauto.
Qed.

Lemma join_clean_last (ls : list str) :
  ls <> [] -> Forall clean ls ->
  exists t c, join nl ls = t ++ [c] /\ isspace c = false.
Proof.
  induction ls as [|l ls IH]; intros Hne H; [contradiction|].
  inversion H as [|? ? Hl Hls]; subst.
  destruct ls as [|l' ls'].
  - destruct Hl as (_ & _ & _ & (t & c & E & Hc)). simpl. eauto.
  - destruct IH as (t & c & E & Hc); [discriminate|assumption|].
    change (join nl (l :: l' :: ls')) with (l ++ nl :: join nl (l' :: ls')).
    rewrite E. exists (l ++ nl :: t), c. split; [|assumption].
    now rewrite <- app_assoc.
Qed.

Lemma join_clean_tight (ls : list str) :
  ls <> [] -> Forall clean ls -> tight (join nl ls).
Proof.
  intros Hne H. split.
  - destruct (join_clean_head ls Hne H) as (c & t & E & _ & Hc). eauto.
  - now apply join_clean_last.
Qed.

Lemma join_clean_not_nil (ls : list str) :
  ls <> [] -> Forall clean ls -> join nl ls <> [].
Proof.
  intros Hne H E. destruct (join_clean_head ls Hne H) as (c & t & E' & _).
  congruence.
Qed.

(** *** Runs of newlines *)

Lemma contains_nl3_skip (l t : str) :
  ~ In nl l -> contains nl3 (l ++ t) = contains nl3 t.
Proof.
  induction l as [|c l IH]; intros H; [reflexivity|].
  simpl app. change (contains nl3 (c :: l ++ t))
    with (startswith (c :: l ++ t) nl3 || contains nl3 (l ++ t)).
  rewrite IH by (intros Hin; apply H; now right).
  unfold nl3 at 1. simpl.
  destruct (Ascii.eqb nl c) eqn:E; [|reflexivity].
  apply Ascii.eqb_eq in E. subst. contradiction H. now left.
Qed.

Lemma contains_nl3_cons (c : ascii) (t : str) :
  c <> nl -> contains nl3 (c :: t) = contains nl3 t.
Proof.
  intros H. apply (contains_nl3_skip [c] t). intros [E|[]]. congruence.
Qed.

Lemma contains_nl3_one (c : ascii) (t : str) :
  c <> nl -> contains nl3 (nl :: c :: t) = contains nl3 t.
Proof.
  intros H.
  change (contains nl3 (nl :: c :: t))
    with (startswith (nl :: c :: t) nl3 || contains nl3 (c :: t)).
  rewrite contains_nl3_cons by assumption.
  unfold nl3 at 1. simpl.
  destruct (Ascii.eqb nl c) eqn:E; [|reflexivity].
  apply Ascii.eqb_eq in E. congruence.
Qed.

(** A character other than the newline separates the runs on its sides. *)
Lemma contains_nl3_sep (q t : str) (c : ascii) :
  c <> nl -> contains nl3 (q ++ c :: t) = contains nl3 q || contains nl3 t.
Proof.
  intros Hc. induction q as [|x q IH].
  - simpl app. now rewrite contains_nl3_cons.
  - simpl app.
    change (contains nl3 (x :: q ++ c :: t))
      with (startswith (x :: q ++ c :: t) nl3 || contains nl3 (q ++ c :: t)).
    change (contains nl3 (x :: q))
      with (startswith (x :: q) nl3 || contains nl3 q).
    rewrite IH, orb_assoc. f_equal. f_equal.
    assert (Hn : Ascii.eqb nl c = false).
    { destruct (Ascii.eqb nl c) eqn:E; [|reflexivity].
      apply Ascii.eqb_eq in E. congruence. }
    destruct q as [|y [|z q]]; simpl; rewrite ?Hn, ?andb_false_r; reflexivity.
Qed.

Lemma join_clean_no_nl3 (ls : list str) :
  Forall clean ls -> contains nl3 (join nl ls) = false.
Proof.
  induction ls as [|l ls IH]; intros H; [reflexivity|].
  inversion H as [|? ? Hl Hls]; subst.
  destruct Hl as (_ & Hnl & _).
  destruct ls as [|l' ls'].
  - simpl. rewrite <- (app_nil_r l), contains_nl3_skip by assumption. reflexivity.
  - change (join nl (l :: l' :: ls')) with (l ++ nl :: join nl (l' :: ls')).
    rewrite contains_nl3_skip by assumption.
    destruct (join_clean_head (l' :: ls')) as (c & t & E & Hc & _);
      [discriminate|assumption|].
    rewrite E, contains_nl3_one by assumption.
    rewrite <- contains_nl3_cons with (c := c) by assumption.
    rewrite <- E. now apply IH.
Qed.

(** *** [replace] *)

Lemma replace_absent (s old new : str) :
  old <> [] -> contains old s = false -> replace s old new = s.
Proof.
  intros Hold. unfold replace. induction s as [|c s IH]; intros H; [reflexivity|].
  simpl in H. apply orb_false_iff in H as [Hp Hc].
  simpl. destruct old as [|o old']; [contradiction|].
  simpl in Hp. simpl. rewrite Hp. f_equal. now apply IH.
Qed.

End StringFacts.

(** * Facts about indexing *)

Section IndexFacts.

Lemma subseq_In {A : Type} (l1 l2 : list A) (x : A) :
  subseq l1 l2 -> In x l1 -> In x l2.
Proof.
  induction 1; simpl; intros Hin; [contradiction|right; auto|].
  destruct Hin; [now left|right; auto].
Qed.

Lemma subseq_Forall {A : Type} (P : A -> Prop) (l1 l2 : list A) :
  subseq l1 l2 -> Forall P l2 -> Forall P l1.
Proof.
  intros Hs H. apply Forall_forall. intros x Hx.
  eapply Forall_forall in H; [eassumption|]. eapply subseq_In; eassumption.
Qed.

Lemma In_firstn {A : Type} (n : nat) (l : list A) (x : A) :
  In x (firstn n l) -> In x l.
Proof.
  intros H. rewrite <- (firstn_skipn n l). apply in_or_app. now left.
Qed.


Lemma getitem_in_bounds {A : Type} (l : list A) (j : Z) (d : A) :
  0 <= j < len l -> getitem l j = Some (nth (Z.to_nat j) l d).
Proof.
  intros H. unfold getitem. destruct (j <? 0) eqn:E; [lia|].
  apply nth_error_nth'. unfold len in H. lia.
Qed.

Lemma In_count_from (a : Z) (k : nat) (j : Z) :
  In j (count_from a k) <-> a <= j < a + Z.of_nat k.
Proof.
  revert a; induction k as [|k IH]; intros a.
  - simpl. lia.
  - cbn [count_from In]. rewrite IH. lia.
Qed.

Lemma In_range (a b j : Z) : In j (range a b) <-> a <= j < b.
Proof. unfold range. rewrite In_count_from. lia. Qed.

Lemma count_from_app (a : Z) (k1 k2 : nat) :
  count_from a (k1 + k2) = count_from a k1 ++ count_from (a + Z.of_nat k1) k2.
Proof.
  revert a; induction k1 as [|k1 IH]; intros a; simpl.
  - now replace (a + 0) with a by lia.
  - rewrite IH. do 3 f_equal. lia.
Qed.

Lemma range_split (a m b : Z) :
  a <= m < b -> range a b = range a m ++ m :: range (m + 1) b.
Proof.
  intros H. unfold range.
  replace (Z.to_nat (b - a)) with (Z.to_nat (m - a) + S (Z.to_nat (b - (m + 1))))%nat by lia.
  rewrite count_from_app. simpl. do 3 f_equal; lia.
Qed.

Lemma range_in_bounds {A : Type} (l : list A) (a b : Z) :
  0 <= a -> b <= len l -> Forall (fun j => 0 <= j < len l) (range a b).
Proof.
  intros Ha Hb. apply Forall_forall. intros j Hj. apply In_range in Hj. lia.
Qed.

Lemma line_at_In (content_lines : list str) (j : Z) :
  0 <= j < len content_lines -> In (line_at content_lines j) content_lines.
Proof. intros H. apply nth_In. unfold len in H. lia. Qed.

Lemma In_line_at (content_lines : list str) (l : str) :
  In l content_lines -> exists j, 0 <= j < len content_lines /\ line_at content_lines j = l.
Proof.
  intros H. destruct (In_nth _ _ [] H) as (n & Hn & E).
  exists (Z.of_nat n). unfold line_at, len. rewrite Nat2Z.id. split; [lia|assumption].
Qed.

(** [l[0:b]] is the first [b] entries. *)
Lemma slice_prefix {A : Type} (l : list A) (b : Z) :
  0 <= b -> slice l 0 b = firstn (Z.to_nat b) l.
Proof.
  intros Hb. unfold slice, slice_index. pose proof (len_nonneg l) as Hl.
  replace (0 <? 0) with false by reflexivity.
  destruct (b <? 0) eqn:E; [lia|].
  replace (Z.to_nat (Z.min 0 (len l))) with 0%nat by lia.
  simpl skipn. rewrite Nat.sub_0_r.
  destruct (Z.le_ge_cases b (len l)) as [H|H].
  - now rewrite Z.min_l by assumption.
  - rewrite Z.min_r by lia. unfold len in *. rewrite Nat2Z.id.
    rewrite firstn_all. symmetry. apply firstn_all2. lia.
Qed.

(** The least index with a property, below one that has it. *)
Lemma least_index (P : Z -> bool) (a i : Z) :
  a <= i -> P i = true ->
  exists j0, a <= j0 <= i /\ P j0 = true /\ forall j, a <= j < j0 -> P j = false.
Proof.
  intros Hai Hi.
  remember (Z.to_nat (i - a)) as k eqn:Hk. revert a Hai Hk.
  induction k as [|k IH]; intros a Hai Hk.
  - exists i. repeat split; try assumption; try (intros; lia).
  - destruct (P a) eqn:Ea.
    + exists a. repeat split; try assumption; try (intros; lia).
    + destruct (IH (a + 1)) as (j0 & Hb & Hp & Hl); try lia.
      exists j0. repeat split; try lia; try assumption.
      intros j Hj. destruct (Z.eq_dec j a) as [->|Hne]; [assumption|].
      apply Hl. lia.
Qed.

End IndexFacts.

(** * Facts about the two loops *)

Section LoopFacts.

Variable content_lines : list str.
Variable mode : str.
Variable n : Z.

Local Abbreviation in_bounds := (fun j => 0 <= j < len content_lines).
Local Abbreviation nonblank := (fun j => trimmed_at content_lines j <> []).

(** The excerpt loop raises no error on indices within the list, and what it
    returns is what it held, followed by the trimmed non-blank lines at some
    of the indices, in order. *)
Lemma assistant_collect_shape (js : list Z) (acc : list str) :
  Forall in_bounds js ->
  exists picked,
    subseq picked js /\ Forall nonblank picked /\
    Assistant.collect content_lines mode n js acc
    = Some (acc ++ map (trimmed_at content_lines) picked).
Proof.
  revert acc; induction js as [|j js IH]; intros acc H.
  - exists []. simpl. rewrite app_nil_r. repeat constructor.
  - inversion H as [|? ? Hj Hjs]; subst.
    cbn [Assistant.collect].
    rewrite (getitem_in_bounds content_lines j []) by assumption.
    fold (line_at content_lines j). fold (trimmed_at content_lines j).
    destruct (is_empty (trimmed_at content_lines j)) eqn:Ee.
    { destruct (IH acc Hjs) as (picked & Hs & Hn & E).
      exists picked. repeat split; try assumption. now constructor. }
    apply is_empty_false in Ee.
    destruct (Assistant.is_heading _ && _).
    { exists []. simpl. rewrite app_nil_r. repeat constructor. }
    assert (Hone : exists picked,
               subseq picked (j :: js) /\ Forall nonblank picked /\
               Some (acc ++ [trimmed_at content_lines j])
               = Some (acc ++ map (trimmed_at content_lines) picked)).
    { exists [j]. split; [apply subseq_keep, subseq_nil|].
      split; [constructor; [assumption|constructor]|reflexivity]. }
    destruct (eqb mode general && _ && _); [exact Hone|].
    destruct ((eqb mode examination || eqb mode age_appropriate) && _ && _);
      [exact Hone|].
    destruct (IH (acc ++ [trimmed_at content_lines j]) Hjs) as (picked & Hs & Hn & E).
    exists (j :: picked). repeat split.
    + now constructor.
    + now constructor.
    + rewrite E, <- app_assoc. reflexivity.
Qed.

(** The same for the expansion loop. *)
Lemma processor_collect_shape (js : list Z) (acc : list str) :
  Forall in_bounds js ->
  exists picked,
    subseq picked js /\ Forall nonblank picked /\
    Processor.collect content_lines mode n js acc
    = Some (acc ++ map (trimmed_at content_lines) picked).
Proof.
  revert acc; induction js as [|j js IH]; intros acc H.
  - exists []. simpl. rewrite app_nil_r. repeat constructor.
  - inversion H as [|? ? Hj Hjs]; subst.
    cbn [Processor.collect].
    rewrite (getitem_in_bounds content_lines j []) by assumption.
    fold (line_at content_lines j). fold (trimmed_at content_lines j).
    destruct (is_empty (trimmed_at content_lines j)) eqn:Ee.
    { destruct (IH acc Hjs) as (picked & Hs & Hn & E).
      exists picked. repeat split; try assumption. now constructor. }
    apply is_empty_false in Ee.
    assert (Hstop : exists picked,
               subseq picked (j :: js) /\ Forall nonblank picked /\
               Some acc = Some (acc ++ map (trimmed_at content_lines) picked)).
    { exists []. simpl. rewrite app_nil_r. repeat constructor. }
    destruct (isupper _ && _); [exact Hstop|].
    destruct (startswith_any _ _); [exact Hstop|].
    assert (Hone : exists picked,
               subseq picked (j :: js) /\ Forall nonblank picked /\
               Some (acc ++ [trimmed_at content_lines j])
               = Some (acc ++ map (trimmed_at content_lines) picked)).
    { exists [j]. split; [apply subseq_keep, subseq_nil|].
      split; [constructor; [assumption|constructor]|reflexivity]. }
    destruct ((eqb mode examination || eqb mode age_appropriate) && _ && _);
      [exact Hone|].
    destruct (eqb mode general && _ && _); [exact Hone|].
    destruct (IH (acc ++ [trimmed_at content_lines j]) Hjs) as (picked & Hs & Hn & E).
    exists (j :: picked). repeat split.
    + now constructor.
    + now constructor.
    + rewrite E, <- app_assoc. reflexivity.
Qed.

(** Blank lines before the first non-blank one are passed over, and that
    line is collected first: nothing has been collected yet, so no rule can
    stop the excerpt loop before it. *)
Lemma assistant_collect_first (bl js : list Z) (j0 : Z) :
  Forall in_bounds (bl ++ j0 :: js) ->
  Forall (fun j => trimmed_at content_lines j = []) bl ->
  trimmed_at content_lines j0 <> [] ->
  exists picked,
    subseq picked js /\ Forall nonblank picked /\
    Assistant.collect content_lines mode n (bl ++ j0 :: js) []
    = Some (map (trimmed_at content_lines) (j0 :: picked)).
Proof.
  induction bl as [|b bl IH]; intros H Hbl Hj0.
  - simpl app. inversion H as [|? ? Hj Hjs]; subst.
    cbn [Assistant.collect].
    rewrite (getitem_in_bounds content_lines j0 []) by assumption.
    fold (line_at content_lines j0). fold (trimmed_at content_lines j0).
    apply is_empty_false in Hj0. rewrite Hj0. apply is_empty_false in Hj0.
    replace (3 <? len (@nil (list ascii))) with false by reflexivity.
    rewrite andb_false_r. simpl app.
    assert (Hone : exists picked,
               subseq picked js /\ Forall nonblank picked /\
               Some [trimmed_at content_lines j0]
               = Some (map (trimmed_at content_lines) (j0 :: picked))).
    { exists []. repeat constructor. }
    destruct (eqb mode general && _ && _); [exact Hone|].
    destruct ((eqb mode examination || eqb mode age_appropriate) && _ && _);
      [exact Hone|].
    destruct (assistant_collect_shape js [trimmed_at content_lines j0] Hjs)
      as (picked & Hs & Hn & E).
    exists picked. repeat split; assumption.
  - inversion H as [|? ? Hb Hrest]; subst.
    inversion Hbl as [|? ? Eb Hbl']; subst.
    simpl app. cbn [Assistant.collect].
    rewrite (getitem_in_bounds content_lines b []) by assumption.
    fold (line_at content_lines b). fold (trimmed_at content_lines b).
    rewrite Eb. simpl is_empty. cbv iota. now apply IH.
Qed.

End LoopFacts.

(** * The mode policy *)

Section Policy.

Lemma mode_examination_age : eqb examination age_appropriate = false.
Proof. reflexivity. Qed.

Lemma mode_examination_general : eqb examination general = false.
Proof. reflexivity. Qed.

Lemma mode_age_examination : eqb age_appropriate examination = false.
Proof. reflexivity. Qed.

Lemma mode_age_general : eqb age_appropriate general = false.
Proof. reflexivity. Qed.

Lemma mode_general_examination : eqb general examination = false.
Proof. reflexivity. Qed.

Lemma mode_general_age : eqb general age_appropriate = false.
Proof. reflexivity. Qed.

(** The two copies of the policy in the sources are the same function. *)
Lemma lines_needed_same (mode : str) (marks age : option Z) :
  Processor.lines_needed mode marks age = Assistant.lines_needed mode marks age.
Proof. reflexivity. Qed.

Ltac policy_modes :=
  rewrite ?eqb_refl, ?mode_examination_age, ?mode_examination_general,
    ?mode_age_examination, ?mode_age_general, ?mode_general_examination,
    ?mode_general_age.

Ltac policy_cases :=
  cbn [truthy int_of negb andb];
  repeat match goal with
    | |- context [truthy ?x] => is_var x; destruct x; cbn [truthy int_of negb andb]
    | |- context [?a <=? ?b] => destruct (Z.leb_spec a b)
    | |- context [?a =? ?b] => destruct (Z.eqb_spec a b); cbn [negb andb]
    end.

Lemma lines_needed_sound (mode : str) (marks age : option Z) (k : Z) :
  table_4_1 mode marks age k -> Assistant.lines_needed mode marks age = k.
Proof.
  intros H. destruct H; unfold Assistant.lines_needed; policy_modes;
    cbn [andb]; policy_cases; try reflexivity; try lia.
  all: repeat match goal with
         | H : ?m <> _ |- _ => apply eqb_neq in H; rewrite H
         end; reflexivity.
Qed.

Lemma lines_needed_complete (mode : str) (marks age : option Z) :
  table_4_1 mode marks age (Assistant.lines_needed mode marks age).
Proof.
  unfold Assistant.lines_needed.
  destruct (eqb mode examination) eqn:E1;
    [apply eqb_eq in E1; subst mode|apply eqb_neq in E1];
    cbn [andb].
  - policy_modes. cbn [andb]. policy_cases; subst;
      solve [constructor; lia | constructor; discriminate].
  - destruct (eqb mode age_appropriate) eqn:E2;
      [apply eqb_eq in E2; subst mode|apply eqb_neq in E2];
      cbn [andb].
    + policy_modes. policy_cases; subst;
        solve [constructor; lia | constructor; discriminate].
    + destruct (eqb mode general) eqn:E3;
        [apply eqb_eq in E3; subst mode|apply eqb_neq in E3].
      * constructor.
      * now constructor.
Qed.

Lemma lines_needed_range (mode : str) (marks age : option Z) :
  10 <= Assistant.lines_needed mode marks age <= 50.
Proof.
  unfold Assistant.lines_needed.
  repeat match goal with
    | |- context [if ?b then _ else _] => destruct b
    end; lia.
Qed.

End Policy.

(** * The first line with a property *)

Section FirstIndex.

Variable P : str -> bool.

Lemma first_index_Some (ls : list str) (b k : Z) :
  first_index P ls b = Some k <->
  b <= k < b + len ls /\ P (nth (Z.to_nat (k - b)) ls []) = true /\
  forall j, b <= j < k -> P (nth (Z.to_nat (j - b)) ls []) = false.
Proof.
  revert b; induction ls as [|l ls IH]; intros b.
  - simpl. unfold len. simpl. split; [discriminate|lia].
  - cbn [first_index]. unfold len. cbn [length]. rewrite Nat2Z.inj_succ.
    destruct (P l) eqn:El.
    + split.
      * intros E. inversion E; subst k. rewrite Z.sub_diag. simpl.
        repeat split; try lia; try assumption.
      * intros (Hb & Hk & Hl). destruct (Z.eq_dec k b) as [->|Hne]; [reflexivity|].
        specialize (Hl b). rewrite Z.sub_diag in Hl. simpl in Hl.
        rewrite Hl in El by lia. discriminate.
    + rewrite IH. unfold len.
      assert (Hshift : forall j, b + 1 <= j ->
                 nth (Z.to_nat (j - b)) (l :: ls) [] = nth (Z.to_nat (j - (b + 1))) ls []).
      { intros j Hj. replace (Z.to_nat (j - b)) with (S (Z.to_nat (j - (b + 1)))) by lia.
        reflexivity. }
      split.
      * intros (Hb & Hk & Hl). repeat split; try lia.
        -- now rewrite Hshift by lia.
        -- intros j Hj. destruct (Z.eq_dec j b) as [->|Hne].
           ++ now rewrite Z.sub_diag.
           ++ rewrite Hshift by lia. apply Hl. lia.
      * intros (Hb & Hk & Hl).
        assert (k <> b).
        { intros ->. rewrite Z.sub_diag in Hk. simpl in Hk. congruence. }
        repeat split; try lia.
        -- now rewrite <- Hshift by lia.
        -- intros j Hj. rewrite <- Hshift by lia. apply Hl. lia.
Qed.

Lemma first_index_None (ls : list str) (b : Z) :
  first_index P ls b = None <-> Forall (fun l => P l = false) ls.
Proof.
  revert b; induction ls as [|l ls IH]; intros b; simpl.
  - split; [constructor|reflexivity].
  - destruct (P l) eqn:El.
    + split; [discriminate|]. intros H. inversion H; congruence.
    + rewrite IH. split; [now constructor|]. intros H. now inversion H.
Qed.

Lemma first_index_first_line (ls : list str) (k : Z) :
  first_index P ls 0 = Some k <-> first_line_with P ls k.
Proof.
  rewrite first_index_Some. unfold first_line_with, line_at.
  rewrite Z.sub_0_r. simpl.
  split; intros (Hb & Hk & Hl); repeat split; try lia; try assumption;
    intros j Hj; specialize (Hl j Hj); now rewrite Z.sub_0_r in *.
Qed.

End FirstIndex.

(** * The expansion extractor *)

Section Expansion.

Lemma find_context_line_first_index (needle : str) (ls : list str) (b : Z) :
  Processor.find_context_line needle ls b
  = match first_index (contains needle) ls b with
    | Some k => k
    | None => -1
    end.
Proof.
  revert b; induction ls as [|l ls IH]; intros b; simpl; [reflexivity|].
  destruct (contains needle l); [reflexivity|apply IH].
Qed.

Lemma trimmed_clean (content_lines : list str) (picked : list Z) :
  Forall (fun l => ~ In nl l) content_lines ->
  Forall (fun j => 0 <= j < len content_lines) picked ->
  Forall (fun j => trimmed_at content_lines j <> []) picked ->
  Forall clean (map (trimmed_at content_lines) picked).
Proof.
  intros Hnl Hb Hn. apply Forall_map. apply Forall_forall. intros j Hj.
  eapply Forall_forall in Hb, Hn; try eassumption.
  apply clean_strip; [|assumption].
  eapply Forall_forall in Hnl; [eassumption|]. now apply line_at_In.
Qed.

Variable pages_content : list Processor.Page.
Variable page_number : Z.
Variables context mode : str.
Variables marks age : option Z.

(** Past the two guards, the call is decided by the first line that holds the
    trimmed context. *)
Lemma get_expanded_content_valid :
  valid_page pages_content page_number ->
  Processor.get_expanded_content pages_content page_number context mode marks age
  = match first_index (contains (strip context)) (page_lines pages_content page_number) 0 with
    | None => Some context
    | Some k =>
        match Processor.collect (page_lines pages_content page_number) mode
                (Processor.lines_needed mode marks age)
                (expansion_window (page_lines pages_content page_number) mode marks age k) []
        with
        | None => None
        | Some expanded_lines => Some (Processor.finish context expanded_lines)
        end
    end.
Proof.
  intros [Hr Hp]. unfold Processor.get_expanded_content.
  replace (page_number <=? 0) with false by lia.
  replace (len pages_content <? page_number) with false by lia.
  cbn [orb]. apply is_empty_false in Hp. rewrite Hp.
  fold (page_lines pages_content page_number).
  rewrite find_context_line_first_index.
  destruct (first_index _ _ 0) as [k|] eqn:E; [|reflexivity].
  apply first_index_Some in E. replace (k =? -1) with false by lia.
  reflexivity.
Qed.

(** With the anchor on line [k], no error is raised, and the answer is made
    of the trimmed non-blank lines at some indices of the window after [k]. *)
Lemma get_expanded_content_found (k : Z) :
  valid_page pages_content page_number ->
  first_index (contains (strip context)) (page_lines pages_content page_number) 0 = Some k ->
  exists picked,
    subseq picked (expansion_window (page_lines pages_content page_number) mode marks age k) /\
    Forall (fun j => k < j < len (page_lines pages_content page_number)) picked /\
    Forall clean (map (trimmed_at (page_lines pages_content page_number)) picked) /\
    Processor.collect (page_lines pages_content page_number) mode
      (Processor.lines_needed mode marks age)
      (expansion_window (page_lines pages_content page_number) mode marks age k) []
    = Some (map (trimmed_at (page_lines pages_content page_number)) picked) /\
    Processor.get_expanded_content pages_content page_number context mode marks age
    = Some (Processor.finish context
              (map (trimmed_at (page_lines pages_content page_number)) picked)).
Proof.
  intros Hv E. rewrite get_expanded_content_valid, E by assumption.
  apply first_index_Some in E. destruct E as (Hk & _).
  set (cl := page_lines pages_content page_number) in *.
  assert (Hin : Forall (fun j => k < j < len cl) (expansion_window cl mode marks age k)).
  { apply Forall_forall. intros j Hj. apply In_range in Hj. lia. }
  destruct (processor_collect_shape cl mode (Processor.lines_needed mode marks age)
              (expansion_window cl mode marks age k) [])
    as (picked & Hs & Hn & Ec).
  { eapply Forall_impl; [|exact Hin]. simpl. lia. }
  pose proof (subseq_Forall _ _ _ Hs Hin) as Hpk.
  exists picked. rewrite Ec. repeat split; try assumption.
  apply trimmed_clean; try assumption.
  - apply split_on_no_sep.
  - eapply Forall_impl; [|exact Hpk]. simpl. lia.
Qed.

End Expansion.

(** * The properties of the specification: expansion and policy *)

(** C1.  The line count of both extractors is a total function of the mode,
    the marks and the age, and it is the one the table of section 4.1 gives:
    a row of the table gives [k] exactly when the function returns [k].  At
    the boundaries 5, 6, 10, 11, 15 and 16 the counts are 10, 20, 20, 30, 30,
    30 for the marks of an examination and 10, 20, 20, 30, 30, 20 for an age. *)
Theorem lines_needed_matches_table :
  (forall mode marks age k,
      table_4_1 mode marks age k <-> Assistant.lines_needed mode marks age = k) /\
  (forall mode marks age k,
      table_4_1 mode marks age k <-> Processor.lines_needed mode marks age = k) /\
  (forall age,
      map (fun marks => Assistant.lines_needed examination (Some marks) age) boundaries
      = [10; 20; 20; 30; 30; 30] /\
      map (fun marks => Processor.lines_needed examination (Some marks) age) boundaries
      = [10; 20; 20; 30; 30; 30]) /\
  (forall marks,
      map (fun age => Assistant.lines_needed age_appropriate marks (Some age)) boundaries
      = [10; 20; 20; 30; 30; 20] /\
      map (fun age => Processor.lines_needed age_appropriate marks (Some age)) boundaries
      = [10; 20; 20; 30; 30; 20]).
Proof.
  assert (Hiff : forall mode marks age k,
             table_4_1 mode marks age k <-> Assistant.lines_needed mode marks age = k).
  { intros mode marks age k. split.
    - apply lines_needed_sound.
    - intros <-. apply lines_needed_complete. }
  split; [exact Hiff|]. split.
  - intros mode marks age k. rewrite lines_needed_same. apply Hiff.
  - split.
    + intros age. split; reflexivity.
    + intros marks. split; reflexivity.
Qed.

(** C5.  On a valid page whose first line holding the trimmed anchor is line
    [k], the expansion loop raises no error and collects the trimmed
    non-blank lines at some indices of its window, all greater than [k] and in
    order, so never the anchor line; with fewer than 3 lines collected the
    answer is the anchor, an empty line and the lines collected, and
    otherwise the lines collected alone. *)
Theorem expanded_content_after_anchor
        (pages_content : list Processor.Page) (page_number : Z)
        (context mode : str) (marks age : option Z) (k : Z) :
  valid_page pages_content page_number ->
  first_line_with (contains (strip context)) (page_lines pages_content page_number) k ->
  exists picked : list Z,
    let content_lines := page_lines pages_content page_number in
    let window := expansion_window content_lines mode marks age k in
    let collected := map (trimmed_at content_lines) picked in
    subseq picked window /\
    Forall (fun j => k < j < len content_lines) picked /\
    Processor.collect content_lines mode (Processor.lines_needed mode marks age) window []
    = Some collected /\
    Processor.get_expanded_content pages_content page_number context mode marks age
    = Some (if len collected <? 3 then context ++ [nl; nl] ++ lines collected
            else lines collected).
Proof.
  intros Hv Hk. apply first_index_first_line in Hk.
  destruct (get_expanded_content_found pages_content page_number context mode
              marks age k Hv Hk) as (picked & Hs & Hp & _ & Ec & E).
  exists picked. cbv zeta. repeat split; assumption.
Qed.

(** C6.  With a page number outside [1 .. len(pages_content)], or a trimmed
    anchor that no line of the page holds, the call raises no error and
    returns the anchor as it was given. *)
Theorem expanded_content_unchanged
        (pages_content : list Processor.Page) (page_number : Z)
        (context mode : str) (marks age : option Z) :
  page_number <= 0 \/ len pages_content < page_number \/
  Forall (fun line => contains (strip context) line = false)
         (page_lines pages_content page_number) ->
  Processor.get_expanded_content pages_content page_number context mode marks age
  = Some context.
Proof.
  intros H. unfold Processor.get_expanded_content.
  destruct ((page_number <=? 0) || (len pages_content <? page_number)) eqn:Er;
    [reflexivity|].
  destruct (is_empty _); [reflexivity|].
  destruct H as [H|[H|H]]; try lia.
  apply first_index_None with (b := 0) in H.
  fold (page_lines pages_content page_number).
  rewrite find_context_line_first_index, H. reflexivity.
Qed.

(** C10.  With an anchor that is empty or white space only, the trimmed
    anchor is held by every line, so on a valid page the first line is the
    anchor line, the lines collected have an index of 1 or more, and the
    answer is the anchor followed by an empty line and fewer than 3 lines, or
    3 lines or more alone; it is never the anchor unchanged. *)
Theorem expanded_content_blank_anchor
        (pages_content : list Processor.Page) (page_number : Z)
        (context mode : str) (marks age : option Z) :
  strip context = [] ->
  valid_page pages_content page_number ->
  (forall line, contains (strip context) line = true) /\
  first_line_with (contains (strip context)) (page_lines pages_content page_number) 0 /\
  exists picked : list Z,
    let content_lines := page_lines pages_content page_number in
    let collected := map (trimmed_at content_lines) picked in
    subseq picked (expansion_window content_lines mode marks age 0) /\
    Forall (fun j => 1 <= j < len content_lines) picked /\
    Processor.get_expanded_content pages_content page_number context mode marks age
    = Some (if len collected <? 3 then context ++ [nl; nl] ++ lines collected
            else lines collected) /\
    Processor.get_expanded_content pages_content page_number context mode marks age
    <> Some context.
Proof.
  intros Hb Hv.
  assert (Hall : forall line, contains (strip context) line = true).
  { intros line. rewrite Hb. apply contains_nil. }
  assert (Hfirst : first_line_with (contains (strip context))
                     (page_lines pages_content page_number) 0).
  { repeat split; try lia; [|apply Hall].
    pose proof (split_on_not_nil nl (Processor.find_page pages_content page_number)).
    unfold page_lines, len. destruct (split_on nl _); [contradiction|simpl; lia]. }
  split; [exact Hall|]. split; [exact Hfirst|].
  apply first_index_first_line in Hfirst.
  destruct (get_expanded_content_found pages_content page_number context mode
              marks age 0 Hv Hfirst) as (picked & Hs & Hp & Hc & _ & E).
  exists picked. cbv zeta. repeat split; try assumption.
  - eapply Forall_impl; [|exact Hp]. simpl. lia.
  - rewrite E. unfold Processor.finish, lines.
    set (collected := map _ picked) in *.
    destruct (len collected <? 3) eqn:El; intros Heq; inversion Heq as [Hs'].
    + apply (f_equal (@length ascii)) in Hs'. rewrite length_app in Hs'.
      simpl in Hs'. lia.
    + assert (Hne : collected <> []).
      { intros Hnil. rewrite Hnil in El. discriminate. }
      destruct (join_clean_head collected Hne Hc) as (c & t & Ej & _ & Hsp).
      apply (strip_nonblank context c); try assumption.
      rewrite <- Hs', Ej. now left.
Qed.

Lemma expanded_content_after_anchor_witness :
  valid_page [sample_page] 1 /\
  first_line_with (contains (strip (lit " anchor ")))
                  (page_lines [sample_page] 1) 1 /\
  exists picked : list Z,
    let content_lines := page_lines [sample_page] 1 in
    let window := expansion_window content_lines general None None 1 in
    let collected := map (trimmed_at content_lines) picked in
    subseq picked window /\
    Forall (fun j => 1 < j < len content_lines) picked /\
    Processor.collect content_lines general (Processor.lines_needed general None None)
                      window []
    = Some collected /\
    Processor.get_expanded_content [sample_page] 1 (lit " anchor ") general None None
    = Some (if len collected <? 3
            then lit " anchor " ++ [nl; nl] ++ lines collected
            else lines collected).
Proof.
  assert (Hv : valid_page [sample_page] 1).
  { split; [vm_compute; split; discriminate|discriminate]. }
  assert (Hk : first_line_with (contains (strip (lit " anchor ")))
                 (page_lines [sample_page] 1) 1).
  { split; [vm_compute; split; [discriminate|reflexivity]|].
    split; [reflexivity|].
    intros j Hj. replace j with 0 by lia. reflexivity. }
  split; [exact Hv|]. split; [exact Hk|].
  exact (expanded_content_after_anchor [sample_page] 1 (lit " anchor ") general
           None None 1 Hv Hk).
Defined.

Lemma expanded_content_unchanged_witness :
  Forall (fun line => contains (strip (lit "mitochondria")) line = false)
         (page_lines [sample_page] 1) /\
  Processor.get_expanded_content [sample_page] 1 (lit "mitochondria") examination
    (Some 8) None
  = Some (lit "mitochondria").
Proof.
  assert (H : Forall (fun line => contains (strip (lit "mitochondria")) line = false)
                (page_lines [sample_page] 1)).
  { repeat constructor. }
  split; [exact H|].
  apply (expanded_content_unchanged [sample_page] 1 (lit "mitochondria") examination
           (Some 8) None).
  right. right. exact H.
Defined.

Lemma expanded_content_blank_anchor_witness :
  strip (lit "   ") = [] /\
  valid_page [sample_page] 1 /\
  first_line_with (contains (strip (lit "   "))) (page_lines [sample_page] 1) 0 /\
  Processor.get_expanded_content [sample_page] 1 (lit "   ") general None None
  <> Some (lit "   ").
Proof.
  assert (Hb : strip (lit "   ") = []) by reflexivity.
  assert (Hv : valid_page [sample_page] 1).
  { split; [vm_compute; split; discriminate|discriminate]. }
  destruct (expanded_content_blank_anchor [sample_page] 1 (lit "   ") general
              None None Hb Hv) as (_ & Hfirst & picked & _ & _ & _ & Hne).
  split; [exact Hb|]. split; [exact Hv|]. split; [exact Hfirst|exact Hne].
Defined.

(** C4.  A non-blank line that passes the heading test (upper case and more
    than 10 characters, or one of the seven markers at its start) ends the
    excerpt loop only when 4 lines or more are already collected; with fewer
    it is collected as any other line and the loop goes on.  The expansion
    loop applies the same test and ends at once, whatever it has collected. *)
Theorem heading_stop_asymmetry
        (content_lines : list str) (mode : str) (marks age : option Z)
        (j : Z) (js : list Z) (collected : list str) :
  0 <= j < len content_lines ->
  trimmed_at content_lines j <> [] ->
  Assistant.is_heading (trimmed_at content_lines j) = true ->
  Processor.is_heading (trimmed_at content_lines j) = true /\
  (4 <= len collected ->
   Assistant.collect content_lines mode (Assistant.lines_needed mode marks age)
                     (j :: js) collected
   = Some collected) /\
  (len collected < 4 ->
   Assistant.collect content_lines mode (Assistant.lines_needed mode marks age)
                     (j :: js) collected
   = Assistant.collect content_lines mode (Assistant.lines_needed mode marks age)
                       js (collected ++ [trimmed_at content_lines j])) /\
  Processor.collect content_lines mode (Processor.lines_needed mode marks age)
                    (j :: js) collected
  = Some collected.
Proof.
  intros Hj Hne Hh. split; [exact Hh|].
  apply is_empty_false in Hne.
  pose proof (lines_needed_range mode marks age) as Hn.
  cbn [Assistant.collect Processor.collect].
  rewrite (getitem_in_bounds content_lines j []) by assumption.
  fold (line_at content_lines j). fold (trimmed_at content_lines j).
  rewrite Hne, Hh. repeat split.
  - intros Hc. replace (3 <? len collected) with true by lia. reflexivity.
  - intros Hc. replace (3 <? len collected) with false by lia. cbn [andb].
    rewrite len_app.
    replace (len [trimmed_at content_lines j]) with 1 by reflexivity.
    replace (50 <=? len collected + 1) with false by lia.
    replace (Assistant.lines_needed mode marks age <=? len collected + 1)
      with false by lia.
    rewrite !andb_false_r. reflexivity.
  - unfold Assistant.is_heading in Hh.
    destruct (isupper (trimmed_at content_lines j) && _); [reflexivity|].
    cbn [orb] in Hh.
    change Processor.heading_markers with Assistant.heading_markers.
    now rewrite Hh.
Qed.

Lemma heading_stop_asymmetry_witness :
  Assistant.collect sample_heading_lines general
                    (Assistant.lines_needed general None None) [1; 2] [lit "Leaves are green."]
  = Assistant.collect sample_heading_lines general
                      (Assistant.lines_needed general None None) [2]
                      [lit "Leaves are green."; lit "CHAPTER 2"] /\
  Processor.collect sample_heading_lines general
                    (Processor.lines_needed general None None) [1; 2] [lit "Leaves are green."]
  = Some [lit "Leaves are green."].
Proof.
  assert (Hj : 0 <= 1 < len sample_heading_lines) by (vm_compute; split; congruence).
  assert (Hne : trimmed_at sample_heading_lines 1 <> []) by discriminate.
  assert (Hh : Assistant.is_heading (trimmed_at sample_heading_lines 1) = true)
    by reflexivity.
  destruct (heading_stop_asymmetry sample_heading_lines general None None 1 [2]
              [lit "Leaves are green."] Hj Hne Hh) as (_ & _ & Hfew & Hexp).
  split; [|exact Hexp].
  apply Hfew. vm_compute. reflexivity.
Defined.

(** * The search *)

Section Search.

Lemma find_from_found (w s : str) (b : Z) :
  contains w s = true ->
  b <= find_from w s b <= b + len s /\
  startswith (skipn (Z.to_nat (find_from w s b - b)) s) w = true /\
  forall j, b <= j < find_from w s b ->
            startswith (skipn (Z.to_nat (j - b)) s) w = false.
Proof.
  revert b; induction s as [|c s IH]; intros b H.
  - simpl in H. rewrite orb_false_r in H. simpl. rewrite H.
    rewrite Z.sub_diag. unfold len. simpl. repeat split; try lia; assumption.
  - cbn [find_from]. cbn [contains] in H.
    assert (Hlen : len (c :: s) = len s + 1) by (unfold len; simpl length; lia).
    rewrite Hlen. pose proof (len_nonneg s).
    destruct (startswith (c :: s) w) eqn:E.
    + rewrite Z.sub_diag. simpl skipn. repeat split; try lia; assumption.
    + cbn [orb] in H. destruct (IH (b + 1) H) as (Hb & Hs & Hl).
      set (f := find_from w s (b + 1)) in *.
      assert (Hshift : forall j, b + 1 <= j ->
                 skipn (Z.to_nat (j - b)) (c :: s) = skipn (Z.to_nat (j - (b + 1))) s).
      { intros j Hj. replace (Z.to_nat (j - b)) with (S (Z.to_nat (j - (b + 1)))) by lia.
        reflexivity. }
      repeat split; try lia.
      * now rewrite Hshift by lia.
      * intros j Hj. destruct (Z.eq_dec j b) as [->|Hne].
        -- now rewrite Z.sub_diag.
        -- rewrite Hshift by lia. apply Hl. lia.
Qed.

Lemma find_first_occurrence (s w : str) :
  contains w s = true -> first_occurrence w s (find s w).
Proof.
  intros H. unfold find, first_occurrence.
  destruct (find_from_found w s 0 H) as (Hb & Hs & Hl).
  rewrite Z.sub_0_r in Hs. unfold len in Hb.
  assert (Hlen : find_from w s 0 + len w <= len s).
  { apply startswith_iff in Hs as [t Ht].
    apply (f_equal (@length ascii)) in Ht. rewrite length_skipn, length_app in Ht.
    unfold len. lia. }
  repeat split; try assumption; try lia.
  intros j Hj. specialize (Hl j Hj). now rewrite Z.sub_0_r in Hl.
Qed.


(** A slice from [a] to the lesser of [n] and [b], for an [n] that is not
    within the list, is cut at the end of the list. *)
Lemma slice_clamped {A : Type} (l : list A) (a b n : Z) :
  0 <= a -> 0 <= b -> len l <= n ->
  slice l a (Z.min n b)
  = firstn (Z.to_nat (Z.min (len l) b - a)) (skipn (Z.to_nat a) l).
Proof.
  intros Ha Hb Hn. pose proof (len_nonneg l) as Hl. unfold slice, slice_index.
  replace (a <? 0) with false by lia.
  replace (Z.min n b <? 0) with false by lia.
  destruct (Z_le_gt_dec a (len l)) as [Hal|Hal].
  - f_equal; [|f_equal]; lia.
  - rewrite !skipn_all2 by (unfold len in *; lia). now rewrite !firstn_nil.
Qed.

Lemma search_loop_app (query query_lower : str) (pages : list Processor.Page)
      (results : list Processor.SearchHit) :
  Processor.search_loop query query_lower pages results
  = results ++ Processor.search_loop query query_lower pages [].
Proof.
  revert results; induction pages as [|page pages IH]; intros results; simpl.
  - now rewrite app_nil_r.
  - destruct (contains query_lower (lower (Processor.text page))).
    + rewrite IH. rewrite (IH [_]). now rewrite <- app_assoc.
    + apply IH.
Qed.

End Search.

(** X18.  The search returns one hit for each page whose lowercased text
    holds the lowercased query and none for the other pages, in the order of
    the pages.  The position [pos] of a hit is the offset of the first match
    in the lowercased text of its page; its context is cut from the text of
    the page itself, from offset [pos - 100] to offset [pos + len query + 100]
    within the page, so it has 200 characters and the length of the query at
    most. *)
Theorem search_hits (pages_content : list Processor.Page) (query : str) :
  Forall2 (hit_of_page query)
          (filter (page_matches query) pages_content)
          (Processor.search_in_pdf pages_content query).
Proof.
  unfold Processor.search_in_pdf.
  induction pages_content as [|page pages IH]; [constructor|].
  cbn [filter Processor.search_loop]. unfold page_matches at 1.
  destruct (contains (lower query) (lower (Processor.text page))) eqn:E;
    [|exact IH].
  rewrite search_loop_app. cbn [app]. constructor; [|exact IH].
  pose proof (find_first_occurrence _ _ E) as Hf.
  set (pos := find (lower (Processor.text page)) (lower query)) in *.
  unfold hit_of_page. cbn [Processor.hit_page_number Processor.hit_context
                             Processor.hit_match_position].
  destruct Hf as (H0 & Hend & Hs & Hl).
  pose proof (len_nonneg query) as Hq.
  pose proof (len_lower_le (Processor.text page)) as Hle.
  rewrite slice_clamped by lia.
  repeat split; try assumption.
  unfold len. rewrite length_firstn. lia.
Qed.

(** C9.  On a page of 150 letters U+0130 followed by an x, the search for x
    reports the match at offset 300, the offset in the lowercased text, and
    an empty context, whereas the x is at offset 150 of the page of 151
    characters and the text from 100 characters before it to 100 characters
    after it is the last 101 characters of the page. *)
Theorem search_context_misses_match :
  Processor.search_in_pdf [dotted_page] (lit "x")
  = [{| Processor.hit_page_number := 1; Processor.hit_context := [];
        Processor.hit_match_position := 300 |}] /\
  len (Processor.text dotted_page) = 151 /\
  find (Processor.text dotted_page) (lit "x") = 150 /\
  slice (Processor.text dotted_page) (150 - 100) (150 + len (lit "x") + 100)
  = repeat capital_i_dot 100 ++ lit "x".
Proof. vm_compute. repeat split. Qed.

(** * The excerpt extractor *)

Section Excerpt.

(** A blank character is its own lowercase form. *)
Lemma lower_chars_blank (c : ascii) : isspace c = true -> lower_chars c = [c].
Proof.
  destruct c as [[] [] [] [] [] [] [] []]; vm_compute; intros H;
    (reflexivity || discriminate H).
Qed.

(** A line that holds a word of the question is not blank. *)
Lemma holds_question_word_nonblank (question line : str) :
  holds_question_word question line = true -> strip line <> [].
Proof.
  unfold holds_question_word, Assistant.line_matches. intros H.
  apply existsb_exists in H as (word & Hin & Hc).
  apply filter_In in Hin as [Hin Hlen].
  pose proof (split_words (lower question)) as Hw.
  eapply Forall_forall in Hw; [|exact Hin]. destruct Hw as [Hne Hsp].
  destruct word as [|c word]; [contradiction|].
  inversion Hsp as [|? ? Hc0 _]; subst.
  assert (Hcl : In c (lower line)) by (eapply contains_In; [exact Hc|now left]).
  unfold lower in Hcl. apply in_flat_map in Hcl as (c' & Hin' & Ec).
  apply (strip_nonblank line c' Hin').
  destruct (isspace c') eqn:Es; [|reflexivity].
  rewrite (lower_chars_blank c' Es) in Ec. destruct Ec as [Ec|[]].
  congruence.
Qed.

Lemma no_line_holds_word_first_index (pdf_content question : str) :
  no_line_holds_word_longer_than 3 pdf_content question ->
  first_index (holds_question_word question) (split_on nl pdf_content) 0 = None.
Proof.
  intros H. apply first_index_None. apply Forall_forall. intros line Hl.
  unfold holds_question_word, Assistant.line_matches.
  destruct (existsb _ _) eqn:E; [|reflexivity].
  apply existsb_exists in E as (word & Hin & Hc).
  apply filter_In in Hin as [Hin Hlen].
  rewrite (H line word Hl Hin) in Hc; [discriminate|lia].
Qed.

Lemma scan_first_index (content_lines : list str) (question mode : str)
      (marks age : option Z) (b : Z) (rest : list str) :
  Assistant.scan content_lines (split (lower question)) mode marks age b rest
  = match first_index (holds_question_word question) rest b with
    | None => Some []
    | Some i =>
        Assistant.collect content_lines mode (Assistant.lines_needed mode marks age)
                          (excerpt_window content_lines mode marks age i) []
    end.
Proof.
  revert b; induction rest as [|line rest IH]; intros b; [reflexivity|].
  cbn [Assistant.scan first_index].
  fold (holds_question_word question line).
  destruct (holds_question_word question line); [reflexivity|apply IH].
Qed.

(** The two finishing steps change nothing in trimmed lines put together. *)
Lemma post_process_clean (question : str) (ls : list str) :
  Forall clean ls ->
  post_process question ls
  = if is_empty ls then Assistant.pointer_message question else join nl ls.
Proof.
  intros H. unfold post_process.
  rewrite replace_absent; [|discriminate|now apply join_clean_no_nl3].
  destruct ls as [|l ls]; [reflexivity|].
  cbn [is_empty].
  rewrite tight_strip by (apply join_clean_tight; [discriminate|assumption]).
  assert (Hne : join nl (l :: ls) <> [])
    by (apply join_clean_not_nil; [discriminate|assumption]).
  apply is_empty_false in Hne. now rewrite Hne.
Qed.

Lemma extract_relevant_content_nonempty (pdf_content question mode : str)
      (marks age : option Z) :
  pdf_content <> [] ->
  Assistant._extract_relevant_content pdf_content question mode marks age
  = match Assistant.scan (split_on nl pdf_content) (split (lower question))
            mode marks age 0 (split_on nl pdf_content) with
    | None => None
    | Some relevant_lines =>
        Some (post_process question
                (if is_empty relevant_lines
                 then Assistant.first_paragraph (slice (split_on nl pdf_content) 0 50) []
                 else relevant_lines))
    end.
Proof.
  intros Hne. unfold Assistant._extract_relevant_content, post_process.
  apply is_empty_false in Hne. rewrite Hne.
  destruct (Assistant.scan _ _ _ _ _ _ _); [|reflexivity].
  destruct (is_empty (strip _)); reflexivity.
Qed.

(** The first paragraph: what the loop adds to the lines it holds. *)
Lemma first_paragraph_shape (ls acc : list str) :
  len acc < 8 ->
  exists extra,
    Assistant.first_paragraph ls acc = acc ++ extra /\
    len acc + len extra <= 8 /\
    Forall (fun l => l <> [] /\ 20 < len l /\ exists raw, In raw ls /\ l = strip raw)
           extra /\
    (Forall (fun raw => len (strip raw) <= 20) ls -> extra = []) /\
    (Exists (fun raw => 20 < len (strip raw)) ls -> extra <> []).
Proof.
  revert acc; induction ls as [|line ls IH]; intros acc Hacc.
  - exists []. simpl. rewrite app_nil_r. unfold len at 2. simpl.
    repeat split; try lia; try constructor. intros H. inversion H.
  - cbn [Assistant.first_paragraph].
    destruct (negb (is_empty (strip line)) && (20 <? len (strip line))) eqn:E.
    + apply andb_true_iff in E as [Ene Elen].
      apply negb_true_iff, is_empty_false in Ene.
      assert (Hone : Forall (fun l => l <> [] /\ 20 < len l /\
                                      exists raw, In raw (line :: ls) /\ l = strip raw)
                            [strip line]).
      { constructor; [|constructor]. repeat split; try assumption; try lia.
        exists line. split; [now left|reflexivity]. }
      destruct (8 <=? len (acc ++ [strip line])) eqn:E8.
      * exists [strip line]. rewrite len_app in E8.
        replace (len [strip line]) with 1 in * by reflexivity.
        repeat split; try lia; try assumption; try discriminate.
        intros H. inversion H; subst. lia.
      * rewrite len_app in E8. replace (len [strip line]) with 1 in * by reflexivity.
        destruct (IH (acc ++ [strip line])) as (extra & Efp & Hlen & Hall & _ & _).
        { rewrite len_app. replace (len [strip line]) with 1 by reflexivity. lia. }
        rewrite len_app in Hlen. replace (len [strip line]) with 1 in * by reflexivity.
        exists (strip line :: extra). rewrite Efp, <- app_assoc.
        repeat split; try discriminate.
        -- unfold len in *. simpl length. lia.
        -- inversion Hone; subst. constructor; [assumption|].
           eapply Forall_impl; [|exact Hall]. simpl.
           intros l (Ha1 & Ha2 & raw & Ha3 & Ha4). repeat split; try assumption.
           exists raw. split; [now right|assumption].
        -- intros H. inversion H; subst. lia.
    + assert (Hshort : len (strip line) <= 20).
      { apply andb_false_iff in E as [E|E]; [|lia].
        apply negb_false_iff, is_empty_true in E. now rewrite E. }
      destruct (IH acc Hacc) as (extra & Efp & Hlen & Hall & Hnone & Hsome).
      exists extra. repeat split; try assumption.
      * eapply Forall_impl; [|exact Hall]. simpl.
        intros l (Ha1 & Ha2 & raw & Ha3 & Ha4). repeat split; try assumption.
        exists raw. split; [now right|assumption].
      * intros H. inversion H; subst. now apply Hnone.
      * intros H. inversion H; subst; [lia|]. now apply Hsome.
Qed.

(** With a first match on line [i], the excerpt loop raises no error and
    collects first the trimmed text of the first non-blank line from
    [max(0, i - 2)] on, which is line [i] at the latest. *)
Lemma collect_matched (content_lines : list str) (question mode : str)
      (marks age : option Z) (i : Z) :
  Forall (fun l => ~ In nl l) content_lines ->
  first_line_with (holds_question_word question) content_lines i ->
  exists j0 picked,
    Z.max 0 (i - 2) <= j0 <= i /\
    (forall j, Z.max 0 (i - 2) <= j < j0 -> trimmed_at content_lines j = []) /\
    trimmed_at content_lines j0 <> [] /\
    Forall (fun j => j0 < j < len content_lines) picked /\
    Forall clean (map (trimmed_at content_lines) (j0 :: picked)) /\
    Assistant.collect content_lines mode (Assistant.lines_needed mode marks age)
                      (excerpt_window content_lines mode marks age i) []
    = Some (map (trimmed_at content_lines) (j0 :: picked)).
Proof.
  intros Hnl (Hi & Hm & _).
  apply holds_question_word_nonblank in Hm. fold (trimmed_at content_lines i) in Hm.
  pose proof (lines_needed_range mode marks age) as Hn.
  set (n := Assistant.lines_needed mode marks age) in *.
  set (a := Z.max 0 (i - 2)).
  destruct (least_index (fun j => negb (is_empty (trimmed_at content_lines j))) a i)
    as (j0 & Hj0 & Hp & Hl).
  { unfold a. lia. }
  { apply negb_true_iff. now apply is_empty_false. }
  apply negb_true_iff, is_empty_false in Hp.
  unfold excerpt_window. fold n. fold a.
  set (stop := Z.min (len content_lines) (a + n + 5)).
  assert (Hstop : j0 < stop <= len content_lines) by (unfold stop, a in *; lia).
  rewrite (range_split a j0 stop) by lia.
  destruct (assistant_collect_first content_lines mode n (range a j0) (range (j0 + 1) stop) j0)
    as (picked & Hs & Hnb & E); try assumption.
  { rewrite <- range_split by lia. apply range_in_bounds; unfold a; lia. }
  { apply Forall_forall. intros j Hj. apply In_range in Hj.
    specialize (Hl j Hj). apply negb_false_iff in Hl. now apply is_empty_true. }
  assert (Hpk : Forall (fun j => j0 < j < len content_lines) picked).
  { eapply subseq_Forall; [exact Hs|]. apply Forall_forall. intros j Hj.
    apply In_range in Hj. lia. }
  exists j0, picked. repeat split; try assumption; try lia.
  - intros j Hj. specialize (Hl j Hj). apply negb_false_iff in Hl.
    now apply is_empty_true.
  - apply trimmed_clean; try assumption.
    + constructor; [unfold a in *; lia|].
      eapply Forall_impl; [|exact Hpk]. simpl. unfold a in *. lia.
    + now constructor.
Qed.

Lemma forallb_not_nl (l : str) :
  forallb (fun c => negb (Ascii.eqb c nl)) l = true -> ~ In nl l.
Proof.
  intros H Hin. rewrite forallb_forall in H. specialize (H nl Hin).
  now rewrite Ascii.eqb_refl in H.
Qed.

(** The pointer message holds three newlines in a row only if the question does. *)
Lemma pointer_message_nl3 (question : str) :
  contains nl3 (Assistant.pointer_message question) = contains nl3 question.
Proof.
  unfold Assistant.pointer_message.
  rewrite contains_nl3_skip by (apply forallb_not_nl; reflexivity).
  change (lit "' can be found in your uploaded PDF. Please use the search feature for more specific results.")
    with ("'"%char :: lit " can be found in your uploaded PDF. Please use the search feature for more specific results.").
  rewrite contains_nl3_sep by discriminate.
  replace (contains nl3 (lit " can be found in your uploaded PDF. Please use the search feature for more specific results."))
    with false by reflexivity.
  apply orb_false_r.
Qed.

(** With no line that holds a word of the question, the answer is made of the
    first paragraph. *)
Lemma extract_unmatched (pdf_content question mode : str) (marks age : option Z) :
  pdf_content <> [] ->
  first_index (holds_question_word question) (split_on nl pdf_content) 0 = None ->
  exists paragraph,
    len paragraph <= 8 /\
    Forall (fun l => l <> [] /\ 20 < len l /\
                     exists raw, In raw (firstn 50 (split_on nl pdf_content)) /\
                                 l = strip raw) paragraph /\
    Forall clean paragraph /\
    (Forall (fun raw => len (strip raw) <= 20) (firstn 50 (split_on nl pdf_content)) ->
     paragraph = []) /\
    (Exists (fun raw => 20 < len (strip raw)) (firstn 50 (split_on nl pdf_content)) ->
     paragraph <> []) /\
    Assistant._extract_relevant_content pdf_content question mode marks age
    = Some (if is_empty paragraph then Assistant.pointer_message question
            else join nl paragraph).
Proof.
  intros Hne Hnone.
  rewrite extract_relevant_content_nonempty, scan_first_index, Hnone by assumption.
  cbn [is_empty]. rewrite slice_prefix by lia.
  change (Z.to_nat 50) with 50%nat.
  destruct (first_paragraph_shape (firstn 50 (split_on nl pdf_content)) [])
    as (paragraph & E & Hlen & Hall & Hshort & Hlong); [reflexivity|].
  rewrite E. cbn [app]. change (len (@nil (list ascii))) with 0 in Hlen.
  assert (Hclean : Forall clean paragraph).
  { eapply Forall_impl; [|exact Hall]. cbv beta.
    intros l (Hl & _ & raw & Hin & ->). apply clean_strip; [|assumption].
    pose proof (split_on_no_sep nl pdf_content) as Hnl.
    eapply Forall_forall in Hnl; [exact Hnl|]. eapply In_firstn. exact Hin. }
  exists paragraph. rewrite post_process_clean by assumption.
  repeat split; try assumption; try lia.
Qed.

(** With a first match on line [i], the answer is made of the lines collected
    around it. *)
Lemma extract_matched (pdf_content question mode : str) (marks age : option Z) (i : Z) :
  first_line_with (holds_question_word question) (split_on nl pdf_content) i ->
  exists j0 picked,
    Z.max 0 (i - 2) <= j0 <= i /\
    (forall j, Z.max 0 (i - 2) <= j < j0 -> trimmed_at (split_on nl pdf_content) j = []) /\
    trimmed_at (split_on nl pdf_content) j0 <> [] /\
    Forall (fun j => j0 < j < len (split_on nl pdf_content)) picked /\
    Forall clean (map (trimmed_at (split_on nl pdf_content)) (j0 :: picked)) /\
    Assistant._extract_relevant_content pdf_content question mode marks age
    = Some (join nl (map (trimmed_at (split_on nl pdf_content)) (j0 :: picked))).
Proof.
  intros Hm.
  assert (Hne : pdf_content <> []).
  { intros ->. destruct Hm as (Hi & Hh & _).
    change (split_on nl []) with [@nil ascii] in *.
    assert (i = 0) by (unfold len in Hi; simpl in Hi; lia). subst i.
    apply holds_question_word_nonblank in Hh. now apply Hh. }
  destruct (collect_matched (split_on nl pdf_content) question mode marks age i
              (split_on_no_sep nl pdf_content) Hm)
    as (j0 & picked & Hj0 & Hbl & Hnb & Hpk & Hcl & E).
  exists j0, picked.
  rewrite extract_relevant_content_nonempty, scan_first_index by assumption.
  apply first_index_first_line in Hm. rewrite Hm, E.
  cbn [map is_empty] in *. rewrite (post_process_clean question _ Hcl).
  cbn [is_empty]. repeat split; first [assumption | lia | reflexivity].
Qed.

End Excerpt.

(** * The properties of the specification: excerpts *)

(** C7 as the specification words it does not hold: for an empty document
    the answer is the message of the first guard, not the pointer message. *)
Lemma empty_corpus_counterexample :
  Assistant._extract_relevant_content [] (lit "osmosis") general None None
  = Some (lit "No PDF content available.") /\
  Assistant._extract_relevant_content [] (lit "osmosis") general None None
  <> Some (Assistant.pointer_message (lit "osmosis")).
Proof. split; [reflexivity|discriminate]. Qed.

(** C7, amended.  For an empty document, whatever the question, the mode and
    its parameters, the call raises no error and returns the literal
    [No PDF content available.], which is never the pointer message. *)
Theorem empty_corpus_message (question mode : str) (marks age : option Z) :
  Assistant._extract_relevant_content [] question mode marks age
  = Some (lit "No PDF content available.") /\
  lit "No PDF content available." <> Assistant.pointer_message question.
Proof. split; [reflexivity|discriminate]. Qed.

(** C8 as the specification words it does not hold: the pointer message
    repeats the question as it was typed, newlines included. *)
Lemma three_newlines_counterexample :
  Assistant._extract_relevant_content (lit "Short notes.") sample_question_newlines
                                      general None None
  = Some (Assistant.pointer_message sample_question_newlines) /\
  contains nl3 (Assistant.pointer_message sample_question_newlines) = true.
Proof. split; reflexivity. Qed.

(** Three newlines in a row can only come with the pointer message: the
    other answers are the message of the first guard and trimmed lines put
    together. *)
Lemma returned_newlines (pdf_content question mode : str) (marks age : option Z) :
  exists out,
    Assistant._extract_relevant_content pdf_content question mode marks age = Some out /\
    (out = Assistant.pointer_message question \/ contains nl3 out = false).
Proof.
  destruct pdf_content as [|c pdf] eqn:Epdf.
  { exists Assistant.no_content_message. split; [reflexivity|now right]. }
  rewrite <- Epdf. assert (Hne : pdf_content <> []) by (rewrite Epdf; discriminate).
  clear Epdf.
  destruct (first_index (holds_question_word question) (split_on nl pdf_content) 0)
    as [i|] eqn:E.
  - apply first_index_first_line in E.
    destruct (extract_matched pdf_content question mode marks age i E)
      as (j0 & picked & _ & _ & _ & _ & Hcl & Eout).
    eexists. split; [exact Eout|]. right. now apply join_clean_no_nl3.
  - destruct (extract_unmatched pdf_content question mode marks age Hne E)
      as (paragraph & _ & _ & Hcl & _ & _ & Eout).
    eexists. split; [exact Eout|].
    destruct (is_empty paragraph); [now left|].
    right. now apply join_clean_no_nl3.
Qed.

(** C8, amended.  For every document, mode and parameters, and every
    question that holds no three newlines in a row, the call raises no error
    and the string returned holds no three newlines in a row. *)
Theorem no_three_newlines (pdf_content question mode : str) (marks age : option Z) :
  contains nl3 question = false ->
  exists out,
    Assistant._extract_relevant_content pdf_content question mode marks age = Some out /\
    contains nl3 out = false.
Proof.
  intros Hq.
  destruct (returned_newlines pdf_content question mode marks age) as (out & E & [->|H]).
  - eexists. split; [exact E|]. now rewrite pointer_message_nl3.
  - now exists out.
Qed.

Lemma no_three_newlines_witness :
  contains nl3 (lit "what is osmosis") = false /\
  exists out,
    Assistant._extract_relevant_content sample_blank_start (lit "what is osmosis")
                                        examination (Some 8) None
    = Some out /\
    contains nl3 out = false.
Proof.
  split; [reflexivity|].
  apply (no_three_newlines sample_blank_start (lit "what is osmosis") examination
           (Some 8) None).
  reflexivity.
Defined.

(** C2 as the specification words it does not hold: a word of 4 characters
    is a word of the question too, and the lines around its first match are
    returned whatever their length; and when nothing matches and no line is
    longer than 20 characters, the pointer message is returned, which is not
    a line of the document. *)
Lemma no_match_fallback_counterexample :
  (no_line_holds_word_longer_than 4 sample_short (lit "cats") /\
   Assistant._extract_relevant_content sample_short (lit "cats") general None None
   = Some (lines [lit "Cats purr."; lit "Dogs bark."]) /\
   ~ fallback_excerpt sample_short (lines [lit "Cats purr."; lit "Dogs bark."])) /\
  (no_line_holds_word_longer_than 4 (lit "Short notes.") (lit "volcano") /\
   Assistant._extract_relevant_content (lit "Short notes.") (lit "volcano") general None None
   = Some (Assistant.pointer_message (lit "volcano")) /\
   ~ fallback_excerpt (lit "Short notes.") (Assistant.pointer_message (lit "volcano"))).
Proof.
  split; (split; [|split]).
  - intros line word _ Hw Hlen. vm_compute in Hw.
    destruct Hw as [<-|[]]. vm_compute in Hlen. discriminate.
  - reflexivity.
  - intros [_ H]. vm_compute in H. inversion H as [|? ? (_ & Hlen & _) _].
    discriminate.
  - intros line word Hl Hw _. vm_compute in Hl, Hw.
    destruct Hl as [<-|[]]. destruct Hw as [<-|[]]. reflexivity.
  - reflexivity.
  - intros [_ H]. vm_compute in H.
    inversion H as [|? ? (_ & _ & raw & Hraw & Eraw) _].
    destruct Hraw as [<-|[]]. vm_compute in Eraw. discriminate.
Qed.

(** C2, amended.  When no line of the document holds a word of the question
    longer than 3 characters, the call raises no error, and: for an empty
    document it returns the message of the first guard; when none of the
    first 50 lines is longer than 20 characters once trimmed, it returns the
    pointer message; otherwise it returns at most 8 lines, each non-blank,
    longer than 20 characters and the trimmed text of one of the first 50
    lines of the document. *)
Theorem no_match_fallback (pdf_content question mode : str) (marks age : option Z) :
  no_line_holds_word_longer_than 3 pdf_content question ->
  exists out,
    Assistant._extract_relevant_content pdf_content question mode marks age = Some out /\
    ((pdf_content = [] /\ out = lit "No PDF content available.") \/
     (pdf_content <> [] /\
      Forall (fun raw => len (strip raw) <= 20) (firstn 50 (split_on nl pdf_content)) /\
      out = Assistant.pointer_message question) \/
     (pdf_content <> [] /\
      Exists (fun raw => 20 < len (strip raw)) (firstn 50 (split_on nl pdf_content)) /\
      fallback_excerpt pdf_content out)).
Proof.
  intros Hno. destruct pdf_content as [|c pdf] eqn:Epdf.
  { eexists. split; [reflexivity|]. left. split; reflexivity. }
  rewrite <- Epdf in *. assert (Hne : pdf_content <> []) by (rewrite Epdf; discriminate).
  clear Epdf. apply no_line_holds_word_first_index in Hno.
  destruct (extract_unmatched pdf_content question mode marks age Hne Hno)
    as (paragraph & Hlen & Hall & Hcl & Hshort & Hlong & Eout).
  eexists. split; [exact Eout|]. right.
  destruct (Forall_Exists_dec (fun raw => len (strip raw) <= 20)
              (fun raw => Z_le_dec (len (strip raw)) 20)
              (firstn 50 (split_on nl pdf_content))) as [Hs|Hl].
  - left. rewrite (Hshort Hs). repeat split; assumption.
  - right.
    assert (Hl' : Exists (fun raw => 20 < len (strip raw))
                         (firstn 50 (split_on nl pdf_content))).
    { eapply Exists_impl; [|exact Hl]. cbv beta. intros; lia. }
    specialize (Hlong Hl'). apply is_empty_false in Hlong as Hie. rewrite Hie.
    repeat split; try assumption.
    + rewrite split_on_join; [assumption|assumption|].
      eapply Forall_impl; [|exact Hcl]. intros l (_ & Hnl & _). exact Hnl.
    + rewrite split_on_join; [|assumption|].
      * apply Forall_forall. intros l Hin.
        pose proof Hall as Hall'. pose proof Hcl as Hcl'.
        eapply Forall_forall in Hall', Hcl'; try exact Hin.
        destruct Hall' as (Hl0 & Hl20 & raw & Hraw & El).
        repeat split; try assumption.
        -- rewrite tight_strip; [assumption|apply Hcl'].
        -- now exists raw.
      * eapply Forall_impl; [|exact Hcl]. intros l (_ & Hnl & _). exact Hnl.
Qed.

Lemma no_match_fallback_witness :
  no_line_holds_word_longer_than 3 sample_document (lit "what is a volcano") /\
  exists out,
    Assistant._extract_relevant_content sample_document (lit "what is a volcano")
                                        general None None
    = Some out /\
    ((sample_document = [] /\ out = lit "No PDF content available.") \/
     (sample_document <> [] /\
      Forall (fun raw => len (strip raw) <= 20) (firstn 50 (split_on nl sample_document)) /\
      out = Assistant.pointer_message (lit "what is a volcano")) \/
     (sample_document <> [] /\
      Exists (fun raw => 20 < len (strip raw)) (firstn 50 (split_on nl sample_document)) /\
      fallback_excerpt sample_document out)).
Proof.
  assert (H : no_line_holds_word_longer_than 3 sample_document (lit "what is a volcano")).
  { intros line word Hl Hw Hlen. vm_compute in Hl, Hw.
    destruct Hl as [<-|[<-|[<-|[]]]];
      destruct Hw as [<-|[<-|[<-|[<-|[]]]]]; reflexivity || (vm_compute in Hlen; discriminate). }
  split; [exact H|].
  exact (no_match_fallback sample_document (lit "what is a volcano") general None None H).
Defined.

(** C3 as the specification words it does not hold: the lines collected are
    trimmed and the blank ones are passed over, so the first line of the
    excerpt need not be the line two places before the match. *)
Lemma leading_context_counterexample :
  (first_line_with (holds_question_word (lit "osmosis")) (split_on nl sample_blank_start) 2 /\
   Assistant._extract_relevant_content sample_blank_start (lit "osmosis") general None None
   = Some (lines [lit "Biology"; lit "Osmosis moves water."]) /\
   split_on nl (lines [lit "Biology"; lit "Osmosis moves water."])
   = [lit "Biology"; lit "Osmosis moves water."] /\
   line_at (split_on nl sample_blank_start) (2 - 2) = lit "" /\
   lit "Biology" <> line_at (split_on nl sample_blank_start) (2 - 2)) /\
  (first_line_with (holds_question_word (lit "osmosis")) (split_on nl sample_padded_start) 2 /\
   Assistant._extract_relevant_content sample_padded_start (lit "osmosis") general None None
   = Some (lines [lit "Biology"; lit "Notes"; lit "Osmosis moves water."]) /\
   split_on nl (lines [lit "Biology"; lit "Notes"; lit "Osmosis moves water."])
   = [lit "Biology"; lit "Notes"; lit "Osmosis moves water."] /\
   line_at (split_on nl sample_padded_start) (2 - 2) = lit "  Biology" /\
   lit "Biology" <> line_at (split_on nl sample_padded_start) (2 - 2)).
Proof.
  assert (Hfirst : forall s,
             holds_question_word (lit "osmosis") (line_at (split_on nl s) 0) = false ->
             holds_question_word (lit "osmosis") (line_at (split_on nl s) 1) = false ->
             forall j, 0 <= j < 2 ->
                       holds_question_word (lit "osmosis") (line_at (split_on nl s) j) = false).
  { intros s H0 H1 j Hj. destruct (Z.eq_dec j 0) as [->|Hne]; [exact H0|].
    replace j with 1 by lia. exact H1. }
  split; (split; [|repeat split; try reflexivity; discriminate]).
  - split; [vm_compute; split; [discriminate|reflexivity]|].
    split; [reflexivity|]. apply Hfirst; reflexivity.
  - split; [vm_compute; split; [discriminate|reflexivity]|].
    split; [reflexivity|]. apply Hfirst; reflexivity.
Qed.

(** C3, amended.  When the first line that holds a word of the question is
    line [i], the call raises no error and the first line of the excerpt is
    the trimmed text of the first non-blank line from [max(0, i - 2)] on,
    which is line [i] at the latest.  So for [i >= 2] and a non-blank line
    [i - 2] it is the trimmed line [i - 2], and for [i < 2] the lines are
    taken from index 0 on. *)
Theorem leading_context (pdf_content question mode : str) (marks age : option Z) (i : Z) :
  first_line_with (holds_question_word question) (split_on nl pdf_content) i ->
  exists out first rest j0,
    Assistant._extract_relevant_content pdf_content question mode marks age = Some out /\
    split_on nl out = first :: rest /\
    Z.max 0 (i - 2) <= j0 <= i /\
    (forall j, Z.max 0 (i - 2) <= j < j0 -> trimmed_at (split_on nl pdf_content) j = []) /\
    first = trimmed_at (split_on nl pdf_content) j0 /\
    first <> [] /\
    (2 <= i -> trimmed_at (split_on nl pdf_content) (i - 2) <> [] ->
     first = trimmed_at (split_on nl pdf_content) (i - 2)) /\
    (i < 2 -> Z.max 0 (i - 2) = 0).
Proof.
  intros Hm.
  destruct (extract_matched pdf_content question mode marks age i Hm)
    as (j0 & picked & Hj0 & Hbl & Hnb & Hpk & Hcl & Eout).
  exists (join nl (map (trimmed_at (split_on nl pdf_content)) (j0 :: picked))),
    (trimmed_at (split_on nl pdf_content) j0),
    (map (trimmed_at (split_on nl pdf_content)) picked), j0.
  repeat split; try assumption; try lia.
  - rewrite split_on_join; [reflexivity|discriminate|].
    eapply Forall_impl; [|exact Hcl]. intros l (_ & Hnl & _). exact Hnl.
  - intros Hi Hnonblank. destruct (Z.eq_dec j0 (i - 2)) as [->|Hne]; [reflexivity|].
    contradiction Hnonblank. apply Hbl. lia.
Qed.

Lemma leading_context_witness :
  first_line_with (holds_question_word (lit "osmosis")) (split_on nl sample_padded_start) 2 /\
  exists out first rest j0,
    Assistant._extract_relevant_content sample_padded_start (lit "osmosis") examination
                                        (Some 8) None
    = Some out /\
    split_on nl out = first :: rest /\
    Z.max 0 (2 - 2) <= j0 <= 2 /\
    (forall j, Z.max 0 (2 - 2) <= j < j0 -> trimmed_at (split_on nl sample_padded_start) j = []) /\
    first = trimmed_at (split_on nl sample_padded_start) j0 /\
    first <> [] /\
    (2 <= 2 -> trimmed_at (split_on nl sample_padded_start) (2 - 2) <> [] ->
     first = trimmed_at (split_on nl sample_padded_start) (2 - 2)) /\
    (2 < 2 -> Z.max 0 (2 - 2) = 0).
Proof.
  assert (H : first_line_with (holds_question_word (lit "osmosis"))
                (split_on nl sample_padded_start) 2).
  { split; [vm_compute; split; [discriminate|reflexivity]|].
    split; [reflexivity|].
    intros j Hj. destruct (Z.eq_dec j 0) as [->|Hne]; [reflexivity|].
    replace j with 1 by lia. reflexivity. }
  split; [exact H|].
  exact (leading_context sample_padded_start (lit "osmosis") examination (Some 8) None 2 H).
Defined.

(** * Further properties of the pdf_processor.py code *)

Section TextExtraction.

Lemma sub_skip_skipn (r : regex) (repl : str) (n : nat) (t : str) :
  Re.sub_skip r repl n t = Re.sub_skip r repl 0 (skipn n t).
Proof.
  revert t; induction n as [|n IH]; intros t; [reflexivity|].
  destruct t as [|c t]; [reflexivity|]. simpl skipn. cbn [Re.sub_skip]. apply IH.
Qed.

(** A pattern that starts with a character no character of the text is
    finds nothing to replace. *)
Lemma sub_first_absent (p : ascii -> bool) (r : regex) (repl s : str) :
  Forall (fun c => p c = false) s -> Re.sub (Cat (Class p) r) repl s = s.
Proof.
  unfold Re.sub. induction s as [|c s IH]; intros H; [reflexivity|].
  inversion H as [|? ? Hc Hs]; subst.
  cbn [Re.sub_skip]. unfold Re.match_len. cbn [Re.rmatch]. rewrite Hc.
  f_equal. now apply IH.
Qed.

(** Replacing by the empty text only takes characters away. *)
Lemma sub_delete_In (r : regex) (k : nat) (s : str) (c : ascii) :
  In c (Re.sub_skip r [] k s) -> In c s.
Proof.
  revert k; induction s as [|c0 s IH]; intros k H; [exact H|].
  cbn [Re.sub_skip] in H. destruct k as [|k].
  - destruct (Re.match_len r (c0 :: s)) as [[|n]|].
    + destruct H as [H|H]; [now left|right; eauto].
    + right. eauto.
    + destruct H as [H|H]; [now left|right; eauto].
  - right. eauto.
Qed.

Lemma replace_delete_In (x c : ascii) (s : str) :
  In c (replace s [x] []) -> In c s /\ c <> x.
Proof.
  unfold replace. induction s as [|c0 s IH]; intros H; [contradiction|].
  cbn [replace_skip startswith] in H.
  destruct (Ascii.eqb x c0) eqn:E; cbn [andb length Nat.pred app] in H.
  - destruct (IH H). split; [now right|assumption].
  - destruct H as [H|H].
    + subst c. split; [now left|]. intros ->. now rewrite Ascii.eqb_refl in E.
    + destruct (IH H). split; [now right|assumption].
Qed.

Lemma star_space (fuel : nat) (s : str) :
  (length s <= fuel)%nat ->
  Re.star_loop (Re.rmatch (Class isspace)) fuel s (fun rest => Some rest)
  = Some (lstrip s).
Proof.
  revert s; induction fuel as [|fuel IH]; intros s H.
  - destruct s; [reflexivity|simpl in H; lia].
  - cbn [Re.star_loop Re.rmatch]. destruct s as [|c s]; [reflexivity|].
    cbn [lstrip]. destruct (isspace c); [|reflexivity].
    replace (length s <? length (c :: s))%nat with true
      by (symmetry; apply Nat.ltb_lt; simpl; lia).
    rewrite IH by (simpl in H; lia). reflexivity.
Qed.

Lemma length_lstrip (s : str) : (length (lstrip s) <= length s)%nat.
Proof.
  destruct (lstrip_decomp s) as (p & E & _).
  rewrite E at 2. rewrite length_app. lia.
Qed.

Lemma skipn_lstrip (s : str) :
  skipn (length s - length (lstrip s)) s = lstrip s.
Proof.
  destruct (lstrip_decomp s) as (p & E & _).
  assert (Hn : (length s - length (lstrip s))%nat = length p).
  { rewrite E at 1. rewrite length_app. lia. }
  rewrite Hn. rewrite E at 1. rewrite skipn_app, Nat.sub_diag, skipn_all. reflexivity.
Qed.

(** Line 63, step by step: a run of white space becomes one space. *)
Lemma sub_whitespace_cons (c : ascii) (t : str) :
  Re.sub Extraction.whitespace_run (lit " ") (c :: t)
  = if isspace c then lit " " ++ Re.sub Extraction.whitespace_run (lit " ") (lstrip t)
    else c :: Re.sub Extraction.whitespace_run (lit " ") t.
Proof.
  unfold Re.sub. cbn [Re.sub_skip]. unfold Re.match_len, Extraction.whitespace_run.
  cbn [Re.rmatch]. destruct (isspace c); [|reflexivity].
  rewrite star_space by lia. pose proof (length_lstrip t) as Hl.
  replace (length (c :: t) - length (lstrip t))%nat
    with (S (length t - length (lstrip t))) by (cbn [length]; lia).
  rewrite sub_skip_skipn, skipn_lstrip. reflexivity.
Qed.

Lemma sub_whitespace_spaces (s : str) :
  Forall (fun c => isspace c = true -> c = " "%char)
         (Re.sub Extraction.whitespace_run (lit " ") s).
Proof.
  remember (length s) as n eqn:Hn. revert s Hn.
  induction n as [n IH] using lt_wf_ind. intros s Hn.
  destruct s as [|c t]; [constructor|].
  rewrite sub_whitespace_cons. destruct (isspace c) eqn:E.
  - constructor; [reflexivity|].
    apply (IH (length (lstrip t))); [|reflexivity].
    pose proof (length_lstrip t). subst n. simpl. lia.
  - constructor; [congruence|].
    apply (IH (length t)); [subst n; simpl; lia|reflexivity].
Qed.

(** What line 72 is given holds no newline: lines 63 to 69 leave no white
    space but the space, and take characters away only. *)
Lemma before_newline_step (text : str) (c : ascii) :
  In c (Re.sub Extraction.cid_code []
          (replace (Re.sub Extraction.whitespace_run (lit " ") text) [Extraction.nul] [])) ->
  (isspace c = true -> c = " "%char) /\ c <> Extraction.nul.
Proof.
  intros H. apply sub_delete_In in H. apply replace_delete_In in H as [H Hnul].
  split; [|assumption].
  pose proof (sub_whitespace_spaces text) as Hs.
  eapply Forall_forall in Hs; eassumption.
Qed.

End TextExtraction.

Lemma newline_run_absent (s : str) :
  ~ In nl s -> Re.sub Extraction.newline_run [nl; nl] s = s.
Proof.
  intros H. unfold Extraction.newline_run. apply sub_first_absent.
  apply Forall_forall. intros c Hc.
  destruct (Ascii.eqb nl c) eqn:E; [|reflexivity].
  apply Ascii.eqb_eq in E. subst c. contradiction.
Qed.

Lemma before_newline_step_no_nl (text : str) :
  ~ In nl (Re.sub Extraction.cid_code []
             (replace (Re.sub Extraction.whitespace_run (lit " ") text) [Extraction.nul] [])).
Proof.
  intros Hc. apply before_newline_step in Hc as [Hsp _].
  specialize (Hsp eq_refl). discriminate.
Qed.

(** X2.  The substitution of line 72, meant to bring runs of newlines down to
    a paragraph break, never changes the text it is given: line 63 has
    already turned every newline into a space. *)
Theorem newline_step_idle (text : str) :
  let before :=
    Re.sub Extraction.cid_code []
      (replace (Re.sub Extraction.whitespace_run (lit " ") text) [Extraction.nul] []) in
  Re.sub Extraction.newline_run [nl; nl] before = before.
Proof.
  cbv zeta. apply newline_run_absent, before_newline_step_no_nl.
Qed.

Lemma clean_text_chars (text : str) (c : ascii) :
  In c (Extraction.clean_extracted_text text) ->
  (isspace c = true -> c = " "%char) /\ c <> Extraction.nul.
Proof.
  unfold Extraction.clean_extracted_text.
  destruct (is_empty text); [intros []|].
  rewrite newline_run_absent by apply before_newline_step_no_nl.
  intros Hin. apply strip_In in Hin. now apply before_newline_step in Hin.
Qed.

Lemma clean_text_no_nl (text : str) : ~ In nl (Extraction.clean_extracted_text text).
Proof.
  intros Hin. apply clean_text_chars in Hin as [Hsp _].
  specialize (Hsp eq_refl). discriminate.
Qed.

(** X1.  The text [clean_extracted_text] returns holds no white space but
    single-character spaces, so no newline and no tab, holds no NUL
    character, and has no white space at its ends. *)
Theorem clean_text_shape (text : str) :
  Forall (fun c => isspace c = true -> c = " "%char) (Extraction.clean_extracted_text text) /\
  ~ In nl (Extraction.clean_extracted_text text) /\
  ~ In Extraction.nul (Extraction.clean_extracted_text text) /\
  (Extraction.clean_extracted_text text = [] \/ tight (Extraction.clean_extracted_text text)).
Proof.
  unfold Extraction.clean_extracted_text.
  destruct (is_empty text).
  { split; [constructor|]. split; [intros []|]. split; [intros []|now left]. }
  rewrite newline_run_absent by apply before_newline_step_no_nl.
  set (before := Re.sub Extraction.cid_code [] _).
  assert (Hc : forall c, In c (strip before) ->
                         (isspace c = true -> c = " "%char) /\ c <> Extraction.nul).
  { intros c Hin. apply strip_In in Hin. now apply before_newline_step in Hin. }
  repeat split.
  - apply Forall_forall. intros c Hin. now apply Hc.
  - intros Hin. destruct (Hc nl Hin) as [Hsp _]. specialize (Hsp eq_refl). discriminate.
  - intros Hin. destruct (Hc _ Hin) as [_ Hn]. now apply Hn.
  - destruct (strip before) eqn:E; [now left|right].
    rewrite <- E. apply strip_tight. congruence.
Qed.

Section ExtractedPages.

Lemma extract_loop_app (b : Z) (texts : list (option str))
      (acc : list Processor.Page) (full : str) :
  fst (Extraction.extract_loop b texts acc full)
  = acc ++ fst (Extraction.extract_loop b texts [] []).
Proof.
  revert b acc full; induction texts as [|t texts IH]; intros b acc full.
  - simpl. now rewrite app_nil_r.
  - cbn [Extraction.extract_loop]. destruct t as [[|c t]|]; try apply IH.
    rewrite IH. rewrite (IH _ ([] ++ _)). now rewrite <- app_assoc.
Qed.

Lemma extract_loop_cons (b : Z) (t : option str) (texts : list (option str)) :
  fst (Extraction.extract_loop b (t :: texts) [] [])
  = match t with
    | Some (c :: r) =>
        {| Processor.page_number := b + 1;
           Processor.text := Extraction.clean_extracted_text (c :: r) |}
        :: fst (Extraction.extract_loop (b + 1) texts [] [])
    | _ => fst (Extraction.extract_loop (b + 1) texts [] [])
    end.
Proof.
  cbn [Extraction.extract_loop]. destruct t as [[|c r]|]; try reflexivity.
  now rewrite extract_loop_app.
Qed.

(** The pages kept from the pages [b + 1], [b + 2], ... of the file. *)
Lemma extract_loop_pages (b : Z) (texts : list (option str)) :
  StronglySorted Z.lt
    (map Processor.page_number (fst (Extraction.extract_loop b texts [] []))) /\
  Forall (fun page =>
            b < Processor.page_number page <= b + len texts /\
            exists raw,
              nth_error texts (Z.to_nat (Processor.page_number page - b - 1)) = Some (Some raw) /\
              raw <> [] /\
              Processor.text page = Extraction.clean_extracted_text raw)
         (fst (Extraction.extract_loop b texts [] [])) /\
  (forall i raw,
      nth_error texts i = Some (Some raw) -> raw <> [] ->
      In {| Processor.page_number := b + Z.of_nat i + 1;
            Processor.text := Extraction.clean_extracted_text raw |}
         (fst (Extraction.extract_loop b texts [] []))).
Proof.
  revert b; induction texts as [|t texts IH]; intros b.
  - simpl. repeat split; try constructor. intros [|i] raw H; discriminate.
  - destruct (IH (b + 1)) as (Hs & Hf & Hc).
    assert (Hlen : len (t :: texts) = len texts + 1) by (unfold len; simpl length; lia).
    assert (Hf' : Forall (fun page =>
                b < Processor.page_number page <= b + len (t :: texts) /\
                exists raw,
                  nth_error (t :: texts) (Z.to_nat (Processor.page_number page - b - 1))
                  = Some (Some raw) /\
                  raw <> [] /\
                  Processor.text page = Extraction.clean_extracted_text raw)
              (fst (Extraction.extract_loop (b + 1) texts [] []))).
    { eapply Forall_impl; [|exact Hf]. cbv beta.
      intros page (Hb & raw & Hn & Hr & Ht). split; [lia|].
      exists raw. repeat split; try assumption.
      replace (Z.to_nat (Processor.page_number page - b - 1))
        with (S (Z.to_nat (Processor.page_number page - (b + 1) - 1))) by lia.
      exact Hn. }
    assert (Hc' : forall i raw,
               nth_error texts i = Some (Some raw) -> raw <> [] ->
               In {| Processor.page_number := b + Z.of_nat (S i) + 1;
                     Processor.text := Extraction.clean_extracted_text raw |}
                  (fst (Extraction.extract_loop (b + 1) texts [] []))).
    { intros i raw Hn Hr. replace (b + Z.of_nat (S i) + 1) with (b + 1 + Z.of_nat i + 1) by lia.
      now apply Hc. }
    rewrite extract_loop_cons. destruct t as [[|c r]|].
    + repeat split; try assumption.
      intros [|i] raw Hn Hr; [simpl in Hn; inversion Hn; subst; contradiction|].
      now apply Hc'.
    + repeat split.
      * cbn [map]. constructor; [assumption|].
        apply Forall_map. eapply Forall_impl; [|exact Hf]. cbv beta.
        cbn [Processor.page_number]. intros page (Hb & _). lia.
      * constructor; [|assumption]. cbn [Processor.page_number Processor.text].
        split; [pose proof (len_nonneg texts); lia|].
        exists (c :: r). replace (b + 1 - b - 1) with 0 by lia.
        repeat split. discriminate.
      * intros [|i] raw Hn Hr.
        -- simpl in Hn. inversion Hn; subst. left. f_equal. lia.
        -- right. now apply Hc'.
    + repeat split; try assumption.
      intros [|i] raw Hn Hr; [discriminate|]. now apply Hc'.
Qed.

Lemma find_page_In (pages : list Processor.Page) (number : Z) :
  Processor.find_page pages number = [] \/
  exists page, In page pages /\ Processor.text page = Processor.find_page pages number.
Proof.
  induction pages as [|page pages IH]; [now left|].
  cbn [Processor.find_page]. destruct (Processor.page_number page =? number).
  - right. exists page. split; [now left|reflexivity].
  - destruct IH as [IH|(q & Hq & E)]; [now left|].
    right. exists q. split; [now right|assumption].
Qed.

(** On pages of one line each, the expansion has nothing to collect. *)
Lemma expansion_single_line (pages_content : list Processor.Page) (page_number : Z)
      (context mode : str) (marks age : option Z) :
  Forall (fun page => ~ In nl (Processor.text page)) pages_content ->
  Processor.get_expanded_content pages_content page_number context mode marks age
  = Some context \/
  Processor.get_expanded_content pages_content page_number context mode marks age
  = Some (context ++ [nl; nl]).
Proof.
  intros H. unfold Processor.get_expanded_content.
  destruct ((page_number <=? 0) || (len pages_content <? page_number)); [now left|].
  destruct (is_empty (Processor.find_page pages_content page_number)) eqn:Ee;
    [now left|].
  apply is_empty_false in Ee.
  destruct (find_page_In pages_content page_number) as [E|(page & Hin & E)];
    [contradiction|].
  eapply Forall_forall in H; [|exact Hin]. rewrite E in H.
  rewrite (split_on_line nl _ H).
  cbn [Processor.find_context_line].
  destruct (contains (strip context) (Processor.find_page pages_content page_number));
    [|now left].
  right. change (0 =? -1) with false. cbv iota. change (0 + 1) with 1.
  pose proof (lines_needed_range mode marks age) as Hn.
  rewrite <- lines_needed_same in Hn.
  replace (Z.min (len [Processor.find_page pages_content page_number])
                 (1 + Processor.lines_needed mode marks age + 10)) with 1
    by (unfold len; simpl length; lia).
  change (range 1 1) with (@nil Z). cbn [Processor.collect].
  unfold Processor.finish. reflexivity.
Qed.

End ExtractedPages.

(** X3.  The pages [extract_text_from_pdf] keeps are exactly the pages of the
    file with some text, under their number counted from 1 and in the order
    of the file, so with numbers that increase; the text of each is the
    cleaned text of its page.  Pages without text leave gaps in the numbers. *)
Theorem extracted_pages (texts : list (option str)) :
  StronglySorted Z.lt
    (map Processor.page_number (fst (Extraction.extract_text_from_pdf texts))) /\
  Forall (fun page =>
            1 <= Processor.page_number page <= len texts /\
            exists raw,
              nth_error texts (Z.to_nat (Processor.page_number page - 1)) = Some (Some raw) /\
              raw <> [] /\
              Processor.text page = Extraction.clean_extracted_text raw)
         (fst (Extraction.extract_text_from_pdf texts)) /\
  (forall i raw,
      nth_error texts i = Some (Some raw) -> raw <> [] ->
      In {| Processor.page_number := Z.of_nat i + 1;
            Processor.text := Extraction.clean_extracted_text raw |}
         (fst (Extraction.extract_text_from_pdf texts))).
Proof.
  unfold Extraction.extract_text_from_pdf.
  destruct (extract_loop_pages 0 texts) as (Hs & Hf & Hc).
  split; [exact Hs|]. split.
  - eapply Forall_impl; [|exact Hf]. cbv beta.
    intros page (Hb & raw & Hn & Hr). split; [lia|].
    exists raw. replace (Processor.page_number page - 1)
      with (Processor.page_number page - 0 - 1) by lia. now split.
  - intros i raw Hn Hr. apply (Hc i raw Hn Hr).
Qed.

(** X4.  On the pages [extract_text_from_pdf] keeps, whatever the page
    number, the anchor, the mode and its parameters, [get_expanded_content]
    raises no error and returns the anchor as it is or the anchor followed by
    two newlines: a cleaned page is one line, so no line follows the anchor. *)
Theorem expansion_of_extracted_pages (texts : list (option str)) (page_number : Z)
        (context mode : str) (marks age : option Z) :
  Processor.get_expanded_content (fst (Extraction.extract_text_from_pdf texts))
                                 page_number context mode marks age
  = Some context \/
  Processor.get_expanded_content (fst (Extraction.extract_text_from_pdf texts))
                                 page_number context mode marks age
  = Some (context ++ [nl; nl]).
Proof.
  apply expansion_single_line. unfold Extraction.extract_text_from_pdf.
  destruct (extract_loop_pages 0 texts) as (_ & Hf & _).
  eapply Forall_impl; [|exact Hf]. cbv beta.
  intros page (_ & raw & _ & _ & ->). apply clean_text_no_nl.
Qed.

Section SearchContext.




End SearchContext.



(** X6.  For the empty query every page is a hit, at position 0, with the
    first 100 characters of the page as its context. *)
Theorem search_empty_query (pages_content : list Processor.Page) :
  Processor.search_in_pdf pages_content []
  = map (fun page =>
           {| Processor.hit_page_number := Processor.page_number page;
              Processor.hit_context := firstn 100 (Processor.text page);
              Processor.hit_match_position := 0 |})
        pages_content.
Proof.
  unfold Processor.search_in_pdf.
  induction pages_content as [|page pages IH]; [reflexivity|].
  cbn [Processor.search_loop map]. change (lower []) with (@nil ascii).
  rewrite contains_nil, search_loop_app. cbn [app]. rewrite <- IH. f_equal.
  assert (Hfind : find (lower (Processor.text page)) [] = 0).
  { unfold find. destruct (lower (Processor.text page)); reflexivity. }
  rewrite Hfind. change (Z.max 0 (0 - 100)) with 0.
  change (0 + len (@nil ascii) + 100) with 100.
  pose proof (len_lower_le (Processor.text page)) as Hl.
  rewrite (slice_clamped _ 0 100) by lia.
  change (Z.to_nat 0) with 0%nat. cbn [skipn]. f_equal.
  rewrite Z.sub_0_r. unfold len in *.
  destruct (Z.le_ge_cases 100 (Z.of_nat (length (Processor.text page)))) as [Hc|Hc].
  - rewrite Z.min_r by lia. reflexivity.
  - rewrite Z.min_l by lia. rewrite Nat2Z.id, firstn_all.
    symmetry. apply firstn_all2. lia.
Qed.

(** * Further properties of the two extractors *)

Section Bounds.

Lemma subseq_length {A : Type} (l1 l2 : list A) :
  subseq l1 l2 -> (length l1 <= length l2)%nat.
Proof. induction 1; simpl; lia. Qed.

Lemma length_count_from (a : Z) (k : nat) : length (count_from a k) = k.
Proof. revert a; induction k as [|k IH]; intros a; simpl; [reflexivity|now rewrite IH]. Qed.

Lemma len_range (a b : Z) : len (range a b) = Z.max 0 (b - a).
Proof. unfold len, range. rewrite length_count_from. lia. Qed.

Lemma tight_literal (s : str) : s <> [] -> strip s = s -> tight s.
Proof. intros Hne E. rewrite <- E. apply strip_tight. now rewrite E. Qed.

Lemma pointer_message_tight (question : str) :
  tight (Assistant.pointer_message question).
Proof.
  unfold Assistant.pointer_message. split.
  - eexists _, _. split; [reflexivity|reflexivity].
  - exists (lit "Content related to '" ++ question ++
            lit "' can be found in your uploaded PDF. Please use the search feature for more specific results"),
      "."%char.
    split; [|reflexivity]. rewrite <- !app_assoc. reflexivity.
Qed.

(** With a first match on line [i], the lines of the answer are the trimmed
    lines at some indices of the window of the loop, in order. *)
Lemma extract_matched_window (pdf_content question mode : str) (marks age : option Z) (i : Z) :
  first_line_with (holds_question_word question) (split_on nl pdf_content) i ->
  exists picked,
    subseq picked (excerpt_window (split_on nl pdf_content) mode marks age i) /\
    picked <> [] /\
    Forall clean (map (trimmed_at (split_on nl pdf_content)) picked) /\
    Assistant._extract_relevant_content pdf_content question mode marks age
    = Some (join nl (map (trimmed_at (split_on nl pdf_content)) picked)).
Proof.
  intros Hm.
  assert (Hne : pdf_content <> []).
  { intros ->. destruct Hm as (Hi & Hh & _).
    change (split_on nl []) with [@nil ascii] in *.
    assert (i = 0) by (unfold len in Hi; simpl in Hi; lia). subst i.
    apply holds_question_word_nonblank in Hh. now apply Hh. }
  destruct (collect_matched (split_on nl pdf_content) question mode marks age i
              (split_on_no_sep nl pdf_content) Hm)
    as (j0 & picked0 & _ & _ & _ & _ & Hcl & E).
  destruct (assistant_collect_shape (split_on nl pdf_content) mode
              (Assistant.lines_needed mode marks age)
              (excerpt_window (split_on nl pdf_content) mode marks age i) [])
    as (picked & Hs & _ & E').
  { apply range_in_bounds; lia. }
  cbn [app] in E'. rewrite E' in E. inversion E as [Emap].
  assert (Hpk : picked <> []).
  { intros ->. discriminate Emap. }
  exists picked. rewrite Emap.
  rewrite extract_relevant_content_nonempty, scan_first_index by assumption.
  apply first_index_first_line in Hm. rewrite Hm, E', Emap.
  cbn [map is_empty] in *. rewrite (post_process_clean question _ Hcl).
  cbn [is_empty]. repeat split; assumption.
Qed.

End Bounds.

(** X7.  Whatever the document, the question, the mode and its parameters,
    [_extract_relevant_content] raises no error, and the string it returns is
    not empty and has no white space at its ends. *)
Theorem excerpt_never_empty (pdf_content question mode : str) (marks age : option Z) :
  exists out,
    Assistant._extract_relevant_content pdf_content question mode marks age = Some out /\
    out <> [] /\ tight out.
Proof.
  assert (Hp : Assistant.pointer_message question <> [] /\
               tight (Assistant.pointer_message question)).
  { split; [discriminate|apply pointer_message_tight]. }
  destruct pdf_content as [|c pdf] eqn:Epdf.
  { exists Assistant.no_content_message. split; [reflexivity|].
    split; [discriminate|]. apply tight_literal; [discriminate|reflexivity]. }
  rewrite <- Epdf. assert (Hne : pdf_content <> []) by (rewrite Epdf; discriminate).
  clear Epdf.
  destruct (first_index (holds_question_word question) (split_on nl pdf_content) 0)
    as [i|] eqn:E.
  - apply first_index_first_line in E.
    destruct (extract_matched_window pdf_content question mode marks age i E)
      as (picked & _ & Hpk & Hcl & Eout).
    assert (Hm : map (trimmed_at (split_on nl pdf_content)) picked <> []).
    { destruct picked; [contradiction|discriminate]. }
    eexists. split; [exact Eout|]. split.
    + now apply join_clean_not_nil.
    + now apply join_clean_tight.
  - destruct (extract_unmatched pdf_content question mode marks age Hne E)
      as (paragraph & _ & _ & Hcl & _ & _ & Eout).
    eexists. split; [exact Eout|].
    destruct paragraph as [|l ls]; [exact Hp|]. cbn [is_empty]. split.
    + apply join_clean_not_nil; [discriminate|assumption].
    + apply join_clean_tight; [discriminate|assumption].
Qed.



(** X9.  Whatever the pages, the page number, the anchor, the mode and its
    parameters, [get_expanded_content] raises no error; it collects at most
    [lines_needed + 10] lines, and returns the anchor as it is, or the anchor,
    two newlines and fewer than 3 lines collected, or 3 lines collected or
    more put together. *)
Theorem expanded_content_total (pages_content : list Processor.Page) (page_number : Z)
        (context mode : str) (marks age : option Z) :
  exists out collected,
    Processor.get_expanded_content pages_content page_number context mode marks age
    = Some out /\
    len collected <= Processor.lines_needed mode marks age + 10 /\
    Forall clean collected /\
    (out = context \/
     (len collected < 3 /\ out = context ++ [nl; nl] ++ lines collected) \/
     (3 <= len collected /\ out = lines collected)).
Proof.
  pose proof (lines_needed_range mode marks age) as Hn.
  rewrite <- lines_needed_same in Hn.
  assert (Hctx : forall r, r = Some context ->
            exists (out : str) (collected : list str),
              r = Some out /\
              len collected <= Processor.lines_needed mode marks age + 10 /\
              Forall clean collected /\
              (out = context \/
               (len collected < 3 /\ out = context ++ [nl; nl] ++ lines collected) \/
               (3 <= len collected /\ out = lines collected))).
  { intros r ->. exists context, []. split; [reflexivity|].
    split; [unfold len; simpl; lia|]. split; [constructor|now left]. }
  destruct ((page_number <=? 0) || (len pages_content <? page_number)) eqn:Er.
  { apply Hctx. unfold Processor.get_expanded_content. now rewrite Er. }
  destruct (is_empty (Processor.find_page pages_content page_number)) eqn:Ee.
  { apply Hctx. unfold Processor.get_expanded_content. now rewrite Er, Ee. }
  assert (Hv : valid_page pages_content page_number).
  { split; [lia|now apply is_empty_false]. }
  destruct (first_index (contains (strip context)) (page_lines pages_content page_number) 0)
    as [k|] eqn:Ef.
  - destruct (get_expanded_content_found pages_content page_number context mode
                marks age k Hv Ef) as (picked & Hs & _ & Hcl & _ & E).
    pose proof (subseq_length _ _ Hs) as Hlen.
    pose proof (len_range (k + 1)
                  (Z.min (len (page_lines pages_content page_number))
                         (k + 1 + Processor.lines_needed mode marks age + 10))) as Hr.
    fold (expansion_window (page_lines pages_content page_number) mode marks age k) in Hr.
    eexists _, (map (trimmed_at (page_lines pages_content page_number)) picked).
    split; [exact E|]. split; [|split; [exact Hcl|]].
    + unfold len in *. rewrite length_map. lia.
    + unfold Processor.finish, lines. right.
      destruct (len (map (trimmed_at (page_lines pages_content page_number)) picked) <? 3)
        eqn:E3; [left|right]; (split; [lia|reflexivity]).
  - apply Hctx. now rewrite get_expanded_content_valid, Ef.
Qed.

(** * Properties of the answers *)

Section Answers.

Lemma contains_refl (w : str) : contains w w = true.
Proof. apply contains_iff. exists [], []. now rewrite app_nil_r. Qed.

Lemma contains_app_l (w s t : str) : contains w s = true -> contains w (s ++ t) = true.
Proof.
  intros H. apply contains_iff in H as (a & b & ->). apply contains_iff.
  exists a, (b ++ t). now rewrite <- !app_assoc.
Qed.

Lemma contains_app_r (w s t : str) : contains w t = true -> contains w (s ++ t) = true.
Proof.
  intros H. apply contains_iff in H as (a & b & ->). apply contains_iff.
  exists (s ++ a), b. now rewrite <- !app_assoc.
Qed.

Lemma contains_cons (w : str) (c : ascii) (t : str) :
  contains w t = true -> contains w (c :: t) = true.
Proof. intros H. now apply (contains_app_r w [c] t). Qed.

Lemma mode_header_start (mode response : str) :
  startswith (Responses.add_mode_header mode response) (Responses.mode_header mode) = true.
Proof. unfold Responses.add_mode_header. apply startswith_app. Qed.

(** Both sides are brought to one list, nested to the right. *)
Ltac same_text :=
  cbn; rewrite <- ?app_assoc; cbn; rewrite <- ?app_assoc; cbn; reflexivity.

Lemma pdf_based_response_parts (question mode : str) (marks age : option Z)
      (extracted_content : str) :
  contains Responses.pdf_heading
    (Responses._create_pdf_based_response question mode marks age extracted_content) = true /\
  contains (Responses.pdf_heading ++ [nl] ++ extracted_content ++ [nl])
    (Responses._create_pdf_based_response question mode marks age extracted_content) = true /\
  contains ([dquote] ++ question ++ [dquote])
    (Responses._create_pdf_based_response question mode marks age extracted_content) = true.
Proof.
  unfold Responses._create_pdf_based_response, Responses.add_mode_header.
  repeat split; apply contains_app_r, contains_app_r, contains_iff.
  - exists (lit "## "). eexists. same_text.
  - exists (lit "## "). eexists. same_text.
  - exists (lit "## " ++ Responses.pdf_heading ++ [nl] ++ extracted_content ++ [nl; nl]
            ++ lit "## " ++ [Glyph.globe] ++ lit " General Knowledge:" ++ [nl]
            ++ lit "Based on the question ").
    eexists. same_text.
Qed.

Lemma format_response_parts (response mode extracted_content : str) :
  contains Responses.pdf_heading
    (Responses._format_response_with_content response mode extracted_content) = true.
Proof.
  unfold Responses._format_response_with_content, Responses.add_mode_header.
  destruct (contains Responses.pdf_heading response) eqn:E; cbn [negb].
  - apply contains_app_r, contains_app_r. exact E.
  - apply contains_app_r, contains_app_r, contains_iff.
    exists (lit "## "). eexists. same_text.
Qed.

End Answers.

(** X10.  With a document that is not empty, whatever the request to the
    endpoint came to, [generate_response] raises no error, and its answer
    starts with the header of the mode and holds the heading of the section
    made from the document. *)
Theorem generate_response_answers (pdf_content : str) (model_loaded : bool)
        (remote : str -> remote_outcome) (user_question mode : str)
        (marks age : option Z) (difficulty : str) :
  pdf_content <> [] ->
  exists out,
    Responses.generate_response pdf_content model_loaded remote user_question mode
                                marks age difficulty
    = Some out /\
    startswith out (Responses.mode_header mode) = true /\
    contains Responses.pdf_heading out = true.
Proof.
  intros Hne. unfold Responses.generate_response.
  apply is_empty_false in Hne. rewrite Hne.
  destruct (returned_newlines pdf_content user_question mode marks age)
    as (excerpt & E & _).
  rewrite E.
  assert (Hfall : exists out,
             Some (Responses._create_pdf_based_response user_question mode marks age excerpt)
             = Some out /\
             startswith out (Responses.mode_header mode) = true /\
             contains Responses.pdf_heading out = true).
  { eexists. split; [reflexivity|]. split.
    - apply mode_header_start.
    - apply pdf_based_response_parts. }
  destruct model_loaded; cbn [negb]; [|exact Hfall].
  destruct (remote _) as [generated_text| | | |]; try exact Hfall.
  eexists. split; [reflexivity|]. split.
  - apply mode_header_start.
  - apply format_response_parts.
Qed.

Lemma generate_response_answers_witness :
  sample_short <> [] /\
  exists out,
    Responses.generate_response sample_short true (fun _ => answered None) (lit "cats")
                                general None None (lit "medium")
    = Some out /\
    startswith out (Responses.mode_header general) = true /\
    contains Responses.pdf_heading out = true.
Proof.
  assert (H : sample_short <> []) by discriminate.
  split; [exact H|].
  exact (generate_response_answers sample_short true (fun _ => answered None) (lit "cats")
           general None None (lit "medium") H).
Defined.

(** X11.  With a document that is not empty, when no model is loaded or the
    request gives no generated text (a payload that is no list, a status
    other than 200, an exception), the answer is the response made from the
    document alone: it holds, right under the heading, the very string
    [_extract_relevant_content] returned, and the question between quotes. *)
Theorem generate_response_fallback (pdf_content : str) (model_loaded : bool)
        (remote : str -> remote_outcome) (user_question mode : str)
        (marks age : option Z) (difficulty : str) :
  pdf_content <> [] ->
  model_loaded = false \/ (forall prompt text, remote prompt <> answered text) ->
  exists excerpt out,
    Assistant._extract_relevant_content pdf_content user_question mode marks age
    = Some excerpt /\
    Responses.generate_response pdf_content model_loaded remote user_question mode
                                marks age difficulty
    = Some out /\
    out = Responses._create_pdf_based_response user_question mode marks age excerpt /\
    contains (Responses.pdf_heading ++ [nl] ++ excerpt ++ [nl]) out = true /\
    contains ([dquote] ++ user_question ++ [dquote]) out = true.
Proof.
  intros Hne Hoff. unfold Responses.generate_response.
  apply is_empty_false in Hne. rewrite Hne.
  destruct (returned_newlines pdf_content user_question mode marks age)
    as (excerpt & E & _).
  rewrite E. exists excerpt.
  assert (Hfall : exists out,
             Some excerpt = Some excerpt /\
             Some (Responses._create_pdf_based_response user_question mode marks age excerpt)
             = Some out /\
             out = Responses._create_pdf_based_response user_question mode marks age excerpt /\
             contains (Responses.pdf_heading ++ [nl] ++ excerpt ++ [nl]) out = true /\
             contains ([dquote] ++ user_question ++ [dquote]) out = true).
  { eexists. split; [reflexivity|]. split; [reflexivity|]. split; [reflexivity|].
    split; apply pdf_based_response_parts. }
  destruct model_loaded; cbn [negb]; [|exact Hfall].
  destruct Hoff as [Hoff|Hoff]; [discriminate|].
  destruct (remote _) as [generated_text| | | |] eqn:Er; try exact Hfall.
  now apply Hoff in Er.
Qed.

Lemma generate_response_fallback_witness :
  sample_short <> [] /\
  exists excerpt out,
    Assistant._extract_relevant_content sample_short (lit "cats") general None None
    = Some excerpt /\
    Responses.generate_response sample_short true (fun _ => model_loading) (lit "cats")
                                general None None (lit "medium")
    = Some out /\
    out = Responses._create_pdf_based_response (lit "cats") general None None excerpt /\
    contains (Responses.pdf_heading ++ [nl] ++ excerpt ++ [nl]) out = true /\
    contains ([dquote] ++ lit "cats" ++ [dquote]) out = true.
Proof.
  assert (H : sample_short <> []) by discriminate.
  split; [exact H|].
  apply (generate_response_fallback sample_short true (fun _ => model_loading) (lit "cats")
           general None None (lit "medium") H).
  right. intros prompt text. discriminate.
Defined.

(** X12.  The answer [_format_response_with_content] makes always starts
    with the header of the mode and always holds the heading of the section
    made from the document.  When the generated text lacks that heading, the
    extracted content is put right under the heading and the generated text
    under the next one; when it has the heading, the answer is the header and
    the generated text alone, and the extracted content is left out. *)
Theorem format_response_sections (response mode extracted_content : str) :
  startswith (Responses._format_response_with_content response mode extracted_content)
             (Responses.mode_header mode) = true /\
  contains Responses.pdf_heading
           (Responses._format_response_with_content response mode extracted_content) = true /\
  (contains Responses.pdf_heading response = true ->
   Responses._format_response_with_content response mode extracted_content
   = Responses.mode_header mode ++ [nl; nl] ++ response) /\
  (contains Responses.pdf_heading response = false ->
   contains (Responses.pdf_heading ++ [nl] ++ extracted_content ++ [nl])
            (Responses._format_response_with_content response mode extracted_content) = true /\
   contains (lit " General Knowledge:" ++ [nl] ++ response ++ [nl])
            (Responses._format_response_with_content response mode extracted_content) = true).
Proof.
  split; [apply mode_header_start|]. split; [apply format_response_parts|].
  unfold Responses._format_response_with_content, Responses.add_mode_header.
  split; intros E; rewrite E; cbn [negb]; [reflexivity|].
  split; apply contains_app_r, contains_app_r, contains_iff.
  - exists (lit "## "). eexists.
    cbn; rewrite <- ?app_assoc; cbn; rewrite <- ?app_assoc; cbn; reflexivity.
  - exists (lit "## " ++ Responses.pdf_heading ++ [nl] ++ extracted_content ++ [nl; nl]
            ++ lit "## " ++ [Glyph.globe]).
    eexists.
    cbn; rewrite <- ?app_assoc; cbn; rewrite <- ?app_assoc; cbn; reflexivity.
Qed.

(** The age instruction takes a missing age as 16.  Up to the age of
    15 it is the same whatever the difficulty chosen, and above 18 it is the
    same whatever the age; the prompt of the age_appropriate mode ends with
    it, so the same holds of the prompt. *)
Theorem age_instruction_dependence :
  (forall difficulty,
      Responses._get_age_instruction None difficulty
      = Responses._get_age_instruction (Some 16) difficulty) /\
  (forall age difficulty1 difficulty2,
      age <= 15 ->
      Responses._get_age_instruction (Some age) difficulty1
      = Responses._get_age_instruction (Some age) difficulty2) /\
  (forall age1 age2 difficulty,
      18 < age1 -> 18 < age2 ->
      Responses._get_age_instruction (Some age1) difficulty
      = Responses._get_age_instruction (Some age2) difficulty) /\
  (forall question marks1 marks2 age difficulty1 difficulty2 extracted_content,
      age <= 15 ->
      Responses._create_prompt_with_content question age_appropriate marks1 (Some age)
                                            difficulty1 extracted_content
      = Responses._create_prompt_with_content question age_appropriate marks2 (Some age)
                                              difficulty2 extracted_content).
Proof.
  assert (Hd : forall age difficulty1 difficulty2,
             age <= 15 ->
             Responses._get_age_instruction (Some age) difficulty1
             = Responses._get_age_instruction (Some age) difficulty2).
  { intros age d1 d2 H. unfold Responses._get_age_instruction.
    destruct (age <=? 10); [reflexivity|].
    replace (age <=? 15) with true by lia. reflexivity. }
  split; [reflexivity|]. split; [exact Hd|]. split.
  - intros a1 a2 d H1 H2. unfold Responses._get_age_instruction.
    replace (a1 <=? 10) with false by lia. replace (a1 <=? 15) with false by lia.
    replace (a1 <=? 18) with false by lia.
    replace (a2 <=? 10) with false by lia. replace (a2 <=? 15) with false by lia.
    replace (a2 <=? 18) with false by lia. reflexivity.
  - intros question marks1 marks2 age d1 d2 extracted_content H.
    unfold Responses._create_prompt_with_content.
    rewrite mode_age_examination, eqb_refl. f_equal. f_equal. now apply Hd.
Qed.

Section KeyTerms.






End KeyTerms.



(** * The document as the assistant and the search get it *)

Section Pipeline.

Lemma uint_no_nl (d : Decimal.uint) : ~ In nl (lit (NilEmpty.string_of_uint d)).
Proof.
  induction d; cbn; intros H; try contradiction;
    destruct H as [H|H]; try discriminate; auto.
Qed.

Lemma decimal_no_nl (n : Z) : ~ In nl (decimal n).
Proof.
  unfold decimal. destruct (Z.to_int n) as [d|d]; cbn [NilZero.string_of_int].
  - unfold NilZero.string_of_uint. destruct d; try apply uint_no_nl.
    cbn. intros [H|[]]. discriminate.
  - unfold NilZero.string_of_uint. cbn [lit String.list_ascii_of_string].
    intros [H|H]; [discriminate|]. revert H.
    destruct d; try apply uint_no_nl. cbn. intros [H|[]]. discriminate.
Qed.

Lemma page_marker_no_nl (n : Z) : ~ In nl (page_marker n).
Proof.
  unfold page_marker. intros H.
  apply in_app_or in H as [H|H]; [revert H; apply forallb_not_nl; reflexivity|].
  apply in_app_or in H as [H|H]; [now apply decimal_no_nl in H|].
  revert H. apply forallb_not_nl. reflexivity.
Qed.

Lemma extract_loop_text_app (b : Z) (texts : list (option str))
      (acc : list Processor.Page) (full : str) :
  snd (Extraction.extract_loop b texts acc full)
  = full ++ snd (Extraction.extract_loop b texts [] []).
Proof.
  revert b acc full; induction texts as [|t texts IH]; intros b acc full.
  - simpl. now rewrite app_nil_r.
  - cbn [Extraction.extract_loop]. destruct t as [[|c t]|]; try apply IH.
    rewrite IH. rewrite (IH _ _ ([] ++ _)). now rewrite <- app_assoc.
Qed.

(** The full text is made of one block for each page kept. *)
Lemma extract_loop_blocks (b : Z) (texts : list (option str)) :
  snd (Extraction.extract_loop b texts [] [])
  = concat (map (fun page => Extraction.page_block (Processor.page_number page)
                                                   (Processor.text page))
                (fst (Extraction.extract_loop b texts [] []))).
Proof.
  revert b; induction texts as [|t texts IH]; intros b; [reflexivity|].
  rewrite extract_loop_cons. cbn [Extraction.extract_loop].
  destruct t as [[|c r]|]; try apply IH.
  rewrite extract_loop_text_app. cbn [map concat app Processor.page_number Processor.text].
  now rewrite IH.
Qed.

Lemma split_on_blocks (pages : list Processor.Page) :
  Forall (fun page => ~ In nl (Processor.text page)) pages ->
  split_on nl (concat (map (fun page => Extraction.page_block (Processor.page_number page)
                                                              (Processor.text page))
                           pages))
  = flat_map (fun page => [[]; page_marker (Processor.page_number page); Processor.text page])
             pages ++ [[]].
Proof.
  induction 1 as [|page pages Hp Hps IH]; [reflexivity|].
  cbn [map concat flat_map].
  set (rest := concat _) in *.
  assert (Eb : Extraction.page_block (Processor.page_number page) (Processor.text page) ++ rest
               = [] ++ nl :: page_marker (Processor.page_number page)
                    ++ nl :: Processor.text page ++ nl :: rest).
  { unfold Extraction.page_block, page_marker.
    cbn [app]; rewrite <- ?app_assoc; cbn [app]; rewrite <- ?app_assoc; cbn [app].
    reflexivity. }
  rewrite Eb, split_on_app by (intros []).
  rewrite split_on_app by apply page_marker_no_nl.
  rewrite split_on_app by assumption.
  rewrite IH. reflexivity.
Qed.

Lemma search_hit_In (pages : list Processor.Page) (query : str) (hit : Processor.SearchHit) :
  In hit (Processor.search_in_pdf pages query) ->
  exists page,
    In page pages /\
    contains (lower query) (lower (Processor.text page)) = true /\
    Processor.hit_page_number hit = Processor.page_number page /\
    Processor.hit_context hit
    = slice (Processor.text page)
            (Z.max 0 (find (lower (Processor.text page)) (lower query) - 100))
            (Z.min (len (lower (Processor.text page)))
                   (find (lower (Processor.text page)) (lower query) + len query + 100)).
Proof.
  unfold Processor.search_in_pdf. induction pages as [|page pages IH]; [intros []|].
  cbn [Processor.search_loop].
  destruct (contains (lower query) (lower (Processor.text page))) eqn:E.
  - rewrite search_loop_app. cbn [app]. intros [<-|H].
    + exists page. repeat split; [now left|assumption].
    + destruct (IH H) as (q & Hq & Hrest). exists q. split; [now right|assumption].
  - intros H. destruct (IH H) as (q & Hq & Hrest). exists q. split; [now right|assumption].
Qed.

Lemma find_page_sorted (pages : list Processor.Page) (page : Processor.Page) :
  StronglySorted Z.lt (map Processor.page_number pages) ->
  In page pages ->
  Processor.find_page pages (Processor.page_number page) = Processor.text page.
Proof.
  induction pages as [|p pages IH]; intros Hs Hin; [contradiction|].
  cbn [map] in Hs. apply StronglySorted_inv in Hs as [Hs Hlt].
  cbn [Processor.find_page]. destruct Hin as [->|Hin].
  - now rewrite Z.eqb_refl.
  - assert (Processor.page_number p < Processor.page_number page).
    { rewrite Forall_forall in Hlt. apply Hlt. now apply in_map. }
    replace (Processor.page_number p =? Processor.page_number page) with false by lia.
    now apply IH.
Qed.

Lemma contains_trans (a b c : str) :
  contains a b = true -> contains b c = true -> contains a c = true.
Proof.
  intros Hab Hbc. apply contains_iff in Hab as (x & y & ->).
  apply contains_iff in Hbc as (u & v & ->). apply contains_iff.
  exists (u ++ x), (y ++ v). now rewrite <- !app_assoc.
Qed.

Lemma contains_slice (s : str) (a b : Z) : contains (slice s a b) s = true.
Proof.
  unfold slice. apply contains_iff.
  exists (firstn (slice_index s a) s),
    (skipn (slice_index s b - slice_index s a) (skipn (slice_index s a) s)).
  rewrite firstn_skipn. now rewrite firstn_skipn.
Qed.

Lemma contains_strip (s : str) : contains (strip s) s = true.
Proof.
  destruct (strip_decomp s) as (p & q & E & _). apply contains_iff. now exists p, q.
Qed.

(** On a page of one line that holds the trimmed anchor, the expansion
    returns the anchor and two newlines. *)
Lemma expansion_single_line_found (pages_content : list Processor.Page) (page_number : Z)
      (context mode : str) (marks age : option Z) :
  1 <= page_number <= len pages_content ->
  Processor.find_page pages_content page_number <> [] ->
  ~ In nl (Processor.find_page pages_content page_number) ->
  contains (strip context) (Processor.find_page pages_content page_number) = true ->
  Processor.get_expanded_content pages_content page_number context mode marks age
  = Some (context ++ [nl; nl]).
Proof.
  intros Hr Hne Hnl Hc. unfold Processor.get_expanded_content.
  replace (page_number <=? 0) with false by lia.
  replace (len pages_content <? page_number) with false by lia.
  cbn [orb]. apply is_empty_false in Hne. rewrite Hne.
  rewrite (split_on_line nl _ Hnl). cbn [Processor.find_context_line]. rewrite Hc.
  change (0 =? -1) with false. cbv iota. change (0 + 1) with 1.
  pose proof (lines_needed_range mode marks age) as Hn.
  rewrite <- lines_needed_same in Hn.
  replace (Z.min (len [Processor.find_page pages_content page_number])
                 (1 + Processor.lines_needed mode marks age + 10)) with 1
    by (unfold len; simpl length; lia).
  change (range 1 1) with (@nil Z). cbn [Processor.collect].
  unfold Processor.finish. reflexivity.
Qed.

Lemma subseq_map_filter {A B : Type} (f : A -> B) (g : A -> bool) (l : list A) :
  subseq (map f (filter g l)) (map f l).
Proof.
  induction l as [|x l IH]; simpl; [constructor|].
  destruct (g x); simpl; [now apply subseq_keep|now apply subseq_skip].
Qed.

Lemma subseq_sorted (l1 l2 : list Z) :
  subseq l1 l2 -> StronglySorted Z.lt l2 -> StronglySorted Z.lt l1.
Proof.
  induction 1 as [l|x l1 l2 H IH|x l1 l2 H IH]; intros Hs.
  - constructor.
  - apply StronglySorted_inv in Hs as [Hs _]. now apply IH.
  - apply StronglySorted_inv in Hs as [Hs Hlt]. constructor; [now apply IH|].
    eapply subseq_Forall; eassumption.
Qed.

Lemma search_page_numbers (pages : list Processor.Page) (query : str) :
  map Processor.hit_page_number (Processor.search_in_pdf pages query)
  = map Processor.page_number (filter (page_matches query) pages).
Proof.
  unfold Processor.search_in_pdf. induction pages as [|page pages IH]; [reflexivity|].
  cbn [Processor.search_loop filter]. unfold page_matches at 1.
  destruct (contains (lower query) (lower (Processor.text page))); [|exact IH].
  rewrite search_loop_app. cbn [app map Processor.hit_page_number]. now rewrite IH.
Qed.

End Pipeline.

(** X14.  The full text [extract_text_from_pdf] hands to the assistant has,
    for each page kept, an empty line, the marker line of the page and the
    whole cleaned text of the page as one line, and then one empty line at
    its end: its lines are page markers and whole pages. *)
Theorem full_text_lines (texts : list (option str)) :
  split_on nl (snd (Extraction.extract_text_from_pdf texts))
  = flat_map (fun page => [[]; page_marker (Processor.page_number page); Processor.text page])
             (fst (Extraction.extract_text_from_pdf texts)) ++ [[]].
Proof.
  unfold Extraction.extract_text_from_pdf. rewrite extract_loop_blocks.
  apply split_on_blocks.
  destruct (extract_loop_pages 0 texts) as (_ & Hf & _).
  eapply Forall_impl; [|exact Hf]. cbv beta.
  intros page (_ & raw & _ & _ & ->). apply clean_text_no_nl.
Qed.

(** X15.  On the pages [extract_text_from_pdf] keeps, the hits of a search
    come with page numbers that increase: no page is reported twice. *)
Theorem search_hits_increasing (texts : list (option str)) (query : str) :
  StronglySorted Z.lt
    (map Processor.hit_page_number
         (Processor.search_in_pdf (fst (Extraction.extract_text_from_pdf texts)) query)).
Proof.
  rewrite search_page_numbers.
  eapply subseq_sorted; [apply subseq_map_filter|].
  unfold Extraction.extract_text_from_pdf. apply extract_loop_pages.
Qed.

(** X16.  Expanding a hit of a search for a query that is not empty, on the
    pages [extract_text_from_pdf] keeps, never shows more of the document:
    the answer is the context of the hit followed by two newlines when the
    page number of the hit is at most the number of pages kept, and the
    context of the hit as it is otherwise (a page behind a page without
    text can have a greater number). *)
Theorem expand_search_hit (texts : list (option str)) (query mode : str)
        (marks age : option Z) (hit : Processor.SearchHit) :
  query <> [] ->
  In hit (Processor.search_in_pdf (fst (Extraction.extract_text_from_pdf texts)) query) ->
  Processor.get_expanded_content (fst (Extraction.extract_text_from_pdf texts))
    (Processor.hit_page_number hit) (Processor.hit_context hit) mode marks age
  = Some (if Processor.hit_page_number hit
             <=? len (fst (Extraction.extract_text_from_pdf texts))
          then Processor.hit_context hit ++ [nl; nl]
          else Processor.hit_context hit).
Proof.
  intros Hq Hin. set (pages := fst (Extraction.extract_text_from_pdf texts)) in *.
  destruct (search_hit_In pages query hit Hin) as (page & Hp & Hc & En & Ec).
  destruct (extract_loop_pages 0 texts) as (Hs & Hf & _).
  fold (Extraction.extract_text_from_pdf texts) in Hs, Hf. fold pages in Hs, Hf.
  eapply Forall_forall in Hf; [|exact Hp]. destruct Hf as (Hb & raw & _ & _ & Et).
  rewrite En. destruct (Processor.page_number page <=? len pages) eqn:El.
  - assert (Hfind : Processor.find_page pages (Processor.page_number page)
                    = Processor.text page) by now apply find_page_sorted.
    apply expansion_single_line_found; rewrite ?Hfind.
    + lia.
    + intros Hnil. rewrite Hnil in Hc. destruct query as [|c q]; [contradiction|].
      rewrite lower_cons in Hc.
      destruct (lower_chars_cases c) as [[_ E]|[_ E]]; rewrite E in Hc;
        discriminate Hc.
    + rewrite Et. apply clean_text_no_nl.
    + eapply contains_trans; [apply contains_strip|]. rewrite Ec. apply contains_slice.
  - unfold Processor.get_expanded_content.
    replace (len pages <? Processor.page_number page) with true by lia.
    now rewrite orb_true_r.
Qed.

Lemma expand_search_hit_witness :
  lit "three" <> [] /\
  Processor.get_expanded_content
    (fst (Extraction.extract_text_from_pdf [Some (lit "One"); None; Some (lit "Page three")]))
    3 (lit "Page three") general None None
  = Some (lit "Page three").
Proof.
  assert (Hq : lit "three" <> []) by discriminate.
  split; [exact Hq|].
  apply (expand_search_hit [Some (lit "One"); None; Some (lit "Page three")] (lit "three")
           general None None
           {| Processor.hit_page_number := 3; Processor.hit_context := lit "Page three";
              Processor.hit_match_position := 5 |} Hq).
  vm_compute. now left.
Defined.

Section QuotedLines.

Lemma page_marker_tight (n : Z) : tight (page_marker n).
Proof.
  unfold page_marker. split.
  - eexists _, _. split; reflexivity.
  - exists (lit "--- Page " ++ decimal n ++ lit " --"), "-"%char.
    split; [|reflexivity]. rewrite <- !app_assoc. reflexivity.
Qed.

Lemma clean_text_strip (text : str) :
  strip (Extraction.clean_extracted_text text) = Extraction.clean_extracted_text text.
Proof.
  unfold Extraction.clean_extracted_text. destruct (is_empty text); [reflexivity|].
  apply strip_idempotent.
Qed.

(** A non-blank trimmed line of the full text is a marker or a whole page. *)
Lemma full_text_trimmed_line (texts : list (option str)) (raw : str) :
  In raw (split_on nl (snd (Extraction.extract_text_from_pdf texts))) ->
  strip raw <> [] ->
  exists page,
    In page (fst (Extraction.extract_text_from_pdf texts)) /\
    (strip raw = page_marker (Processor.page_number page) \/
     strip raw = Processor.text page).
Proof.
  intros Hin Hne.
  assert (Hlines :
            split_on nl (snd (Extraction.extract_text_from_pdf texts))
            = flat_map (fun page => [[]; page_marker (Processor.page_number page);
                                     Processor.text page])
                       (fst (Extraction.extract_text_from_pdf texts)) ++ [[]]).
  { unfold Extraction.extract_text_from_pdf. rewrite extract_loop_blocks.
    apply split_on_blocks.
    destruct (extract_loop_pages 0 texts) as (_ & Hf & _).
    eapply Forall_impl; [|exact Hf]. cbv beta.
    intros page (_ & r & _ & _ & ->). apply clean_text_no_nl. }
  rewrite Hlines in Hin. apply in_app_or in Hin as [Hin|[<-|[]]].
  - apply in_flat_map in Hin as (page & Hp & Hl). exists page. split; [exact Hp|].
    destruct Hl as [<-|[<-|[<-|[]]]].
    + now contradiction Hne.
    + left. apply tight_strip, page_marker_tight.
    + right. destruct (extract_loop_pages 0 texts) as (_ & Hf & _).
      fold (Extraction.extract_text_from_pdf texts) in Hf.
      eapply Forall_forall in Hf; [|exact Hp].
      destruct Hf as (_ & r & _ & _ & ->). apply clean_text_strip.
  - now contradiction Hne.
Qed.

End QuotedLines.

(** X17.  On the full text [extract_text_from_pdf] makes, whatever the
    question, the mode and its parameters, [_extract_relevant_content]
    raises no error and returns one of its two messages, or lines each of
    which is the marker line of a page kept or the whole text of a page
    kept: it never quotes a part of a page. *)
Theorem excerpt_of_extracted_document (texts : list (option str)) (question mode : str)
        (marks age : option Z) :
  exists out,
    Assistant._extract_relevant_content (snd (Extraction.extract_text_from_pdf texts))
                                        question mode marks age
    = Some out /\
    (out = lit "No PDF content available." \/
     out = Assistant.pointer_message question \/
     Forall (fun l =>
               exists page,
                 In page (fst (Extraction.extract_text_from_pdf texts)) /\
                 (l = page_marker (Processor.page_number page) \/ l = Processor.text page))
            (split_on nl out)).
Proof.
  set (full := snd (Extraction.extract_text_from_pdf texts)).
  destruct full as [|c rest] eqn:Efull.
  { exists (lit "No PDF content available."). split; [reflexivity|now left]. }
  rewrite <- Efull. assert (Hne : full <> []) by (rewrite Efull; discriminate).
  clear Efull.
  destruct (first_index (holds_question_word question) (split_on nl full) 0)
    as [i|] eqn:E.
  - apply first_index_first_line in E.
    destruct (extract_matched_window full question mode marks age i E)
      as (picked & Hs & Hpk & Hcl & Eout).
    eexists. split; [exact Eout|]. right. right.
    rewrite split_on_join.
    + apply Forall_map. apply Forall_forall. intros j Hj.
      assert (Hb : 0 <= j < len (split_on nl full)).
      { assert (Hw : Forall (fun j => 0 <= j < len (split_on nl full))
                            (excerpt_window (split_on nl full) mode marks age i))
          by (apply range_in_bounds; lia).
        eapply subseq_Forall in Hw; [|exact Hs].
        eapply Forall_forall in Hw; eassumption. }
      apply full_text_trimmed_line.
      * now apply line_at_In.
      * rewrite Forall_map in Hcl. eapply Forall_forall in Hcl; [|exact Hj].
        apply Hcl.
    + destruct picked; [contradiction|discriminate].
    + eapply Forall_impl; [|exact Hcl]. intros l (_ & Hnl & _). exact Hnl.
  - destruct (extract_unmatched full question mode marks age Hne E)
      as (paragraph & _ & Hall & Hcl & _ & _ & Eout).
    eexists. split; [exact Eout|]. right.
    destruct paragraph as [|l ls] eqn:Ep; [now left|]. rewrite <- Ep in *.
    right. assert (Hpne : paragraph <> []) by (rewrite Ep; discriminate).
    replace (is_empty paragraph) with false by (rewrite Ep; reflexivity).
    rewrite split_on_join; [|assumption|].
    + eapply Forall_impl; [|exact Hall]. cbv beta.
      intros t (Ht & _ & raw & Hraw & ->).
      apply full_text_trimmed_line; [|assumption].
      eapply In_firstn. exact Hraw.
    + eapply Forall_impl; [|exact Hcl]. intros t (_ & Hnl & _). exact Hnl.
Qed.
